(** * Reconciliation of the donation ledger with on-chain Curation events

    A shallow embedding of [PayToByBlockchainQueue] (the pay-to verifier and
    the curation-event synchronizer of matters-server) together with the
    properties its specification states about it.

    The queue talks to three collaborators: the relational store (through
    [PaymentService], [UserService], [ArticleService] and [AtomService]), the
    chain provider (ethers) and the notification service.  The store is
    modelled as a record of tables with explicit state passing; a write can be
    made to fail by a fault schedule carried in the state, which is what gives
    [knex.transaction] / [commit] / [rollback] a meaning.  The provider is a
    record of pure functions: one view of the chain per job run. *)

From Stdlib Require Import String Ascii List ZArith Bool Lia Arith.
From Stdlib Require Import RelationClasses.
Import ListNotations.
Local Open Scope string_scope.
Local Open Scope Z_scope.
Local Open Scope list_scope.

(** ** Strings *)

Module Str.

(** [String.prototype.toLowerCase], on the ASCII range (addresses are
    hexadecimal literals). *)
Definition lower_ascii (c : ascii) : ascii :=
  let n := nat_of_ascii c in
  if andb (Nat.leb 65 n) (Nat.leb n 90) then ascii_of_nat (n + 32) else c.

Fixpoint toLowerCase (s : string) : string :=
  match s with
  | EmptyString => EmptyString
  | String c s' => String (lower_ascii c) (toLowerCase s')
  end.

(** [s.replace(pat, rep)] with a string pattern: the first occurrence only. *)
Fixpoint replace (pat rep s : string) : string :=
  if String.prefix pat s
  then String.append rep
         (String.substring (String.length pat)
                           (String.length s - String.length pat) s)
  else match s with
       | EmptyString => EmptyString
       | String c s' => String c (replace pat rep s')
       end.

End Str.

(** ** Enumerations ([common/enums]) *)

Inductive TRANSACTION_STATE := pending | succeeded | canceled | failed.

Inductive BLOCKCHAIN_TRANSACTION_STATE := bc_pending | bc_succeeded | bc_reverted.

Inductive TRANSACTION_REMARK := INVALID.

Inductive PAYMENT_PROVIDER := stripe | likecoin | matters | blockchain.

Inductive PAYMENT_CURRENCY := HKD | LIKE | USDT.

Inductive TRANSACTION_PURPOSE := donation | other_purpose.

Definition tx_state_eqb (a b : TRANSACTION_STATE) : bool :=
  match a, b with
  | pending, pending | succeeded, succeeded
  | canceled, canceled | failed, failed => true
  | _, _ => false
  end.

Definition bc_state_eqb (a b : BLOCKCHAIN_TRANSACTION_STATE) : bool :=
  match a, b with
  | bc_pending, bc_pending | bc_succeeded, bc_succeeded
  | bc_reverted, bc_reverted => true
  | _, _ => false
  end.

Definition provider_eqb (a b : PAYMENT_PROVIDER) : bool :=
  match a, b with
  | stripe, stripe | likecoin, likecoin
  | matters, matters | blockchain, blockchain => true
  | _, _ => false
  end.

(** Terminal ledger states (pending is the only transient one). *)
Definition terminal (s : TRANSACTION_STATE) : bool :=
  match s with pending => false | _ => true end.

(** ** Rows *)

Definition Id := nat.
Bind Scope nat_scope with Id.

Record Transaction := mkTransaction {
  tx_id : Id;
  tx_state : TRANSACTION_STATE;
  tx_remark : option TRANSACTION_REMARK;
  tx_purpose : TRANSACTION_PURPOSE;
  tx_currency : PAYMENT_CURRENCY;
  tx_provider : PAYMENT_PROVIDER;
  tx_providerTxId : option Id;
  tx_senderId : option Id;
  tx_recipientId : option Id;
  tx_targetId : option Id;
  tx_amount : string
}.

Record BlockchainTransaction := mkBlockchainTransaction {
  bc_id : Id;
  bc_txHash : string;
  bc_state : BLOCKCHAIN_TRANSACTION_STATE;
  bc_transactionId : option Id
}.

(** A row of [blockchain_curation_event]; [ce_amount] is the decimal text of
    an unsigned integer, kept as the integer it denotes. *)
Record CurationEvent := mkCurationEvent {
  ce_blockchainTransactionId : Id;
  ce_contractAddress : string;
  ce_curatorAddress : string;
  ce_creatorAddress : string;
  ce_tokenAddress : string;
  ce_amount : Z;
  ce_uri : string
}.

Record User := mkUser {
  u_id : Id;
  u_ethAddress : option string;
  u_email : string
}.

Record Article := mkArticle {
  a_id : Id;
  a_authorId : Id;
  a_dataHash : string
}.

(** The tables the queue reads and writes.  [blockchain_sync_record] holds the
    one row keyed by this module's constant (chainId, contractAddress): its
    [blockNumber], when the row exists. *)
Record Db := mkDb {
  transaction : list Transaction;
  blockchain_transaction : list BlockchainTransaction;
  blockchain_curation_event : list CurationEvent;
  blockchain_sync_record : option Z;
  user : list User;
  article : list Article
}.

(** ** The chain provider *)

(** Decoded arguments of [event Curation(curator, creator, token, uri, amount)]. *)
Record CurationArgs := mkArgs {
  curator : string;
  creator : string;
  token : string;
  uri : string;
  amount : Z
}.

(** An ethers [Event] as returned by [queryFilter]. *)
Record Event := mkEvent {
  blockNumber : Z;
  removed : bool;
  transactionHash : string;
  args : CurationArgs
}.

(** A receipt [Log]; [log_args] is what [iface.parseLog] decodes from it. *)
Record Log := mkLog {
  log_address : string;
  log_topics : list string;
  log_args : CurationArgs
}.

Record Receipt := mkReceipt {
  status : Z;
  logs : list Log
}.

Record Provider := mkProvider {
  getBlockNumber : Z;
  queryFilter : option (Z * Z) -> list Event;
  getTransactionReceipt : string -> option Receipt
}.

(** ** Environment ([common/environment], [common/enums], ethers utilities) *)

Record Env := mkEnv {
  curationContractAddress : string;
  USDTContractAddress : string;
  USDTContractDecimals : Z;
  BLOCKCHAIN_SAFE_CONFIRMS_Polygon : Z;
  (** [ethers.utils.parseUnits(amount, decimals)] on a ledger amount *)
  parseUnits : string -> Z -> Z;
  (** [parseFloat(fromTokenBaseUnit(amount, decimals))] as the ledger stores it *)
  fromTokenBaseUnit : Z -> Z -> string;
  (** state of a [blockchain_transaction] row inserted without one *)
  defaultBlockchainTransactionState : BLOCKCHAIN_TRANSACTION_STATE
}.

Definition contractAddress (env : Env) : string :=
  Str.toLowerCase (curationContractAddress env).

(** [common/utils]: [parseUnits(amount, decimals).toString()]; the decimal text
    of a big number is identified with the number. *)
Definition toTokenBaseUnit (env : Env) (amount : string) (decimals : Z) : Z :=
  parseUnits env amount decimals.

Definition ignoreCaseMatch (a b : string) : bool :=
  String.eqb (Str.toLowerCase a) (Str.toLowerCase b).

Definition isValidUri (uri : string) : bool := String.prefix "ipfs://" uri.

Definition extractCid (uri : string) : string := Str.replace "ipfs://" "" uri.

Definition topic : string :=
  "0xc2e41b3d49bbccbac6ceb142bad6119608adf4f1ee1ca5cc6fc332e0ca2fc602".

(** ** Store operations and their effects *)

Inductive Error :=
| PaymentQueueJobDataError (msg : string)
| TypeError
| DbError.

Inductive result (A : Type) :=
| Ok (a : A)
| Err (e : Error).
Arguments Ok {A} a.
Arguments Err {A} e.

(** The statements the queue sends to the store. *)
Inductive Write :=
| MarkTransactionState (id : Id) (s : TRANSACTION_STATE)
                       (r : option TRANSACTION_REMARK)
| MarkBlockchainTransactionState (id : Id) (s : BLOCKCHAIN_TRANSACTION_STATE)
| InsertTransaction (row : Transaction)
| InsertBlockchainTransaction (row : BlockchainTransaction)
| UpdateBlockchainTransactionLink (id : Id) (transactionId : Id)
| InsertCurationEvents (rows : list CurationEvent)
| UpsertSyncRecord (blockNumber : Z).

Definition set_tx_state (s : TRANSACTION_STATE)
    (r : option TRANSACTION_REMARK) (t : Transaction) : Transaction :=
  mkTransaction (tx_id t) s
    (match r with Some _ => r | None => tx_remark t end)
    (tx_purpose t) (tx_currency t) (tx_provider t) (tx_providerTxId t)
    (tx_senderId t) (tx_recipientId t) (tx_targetId t) (tx_amount t).

Definition set_bc_state (s : BLOCKCHAIN_TRANSACTION_STATE)
    (b : BlockchainTransaction) : BlockchainTransaction :=
  mkBlockchainTransaction (bc_id b) (bc_txHash b) s (bc_transactionId b).

Definition set_bc_link (t : Id) (b : BlockchainTransaction)
    : BlockchainTransaction :=
  mkBlockchainTransaction (bc_id b) (bc_txHash b) (bc_state b) (Some t).

(** [UPDATE ... WHERE id = i] on a table whose rows carry their id. *)
Definition update_where {R} (key : R -> Id) (i : Id) (f : R -> R)
    (rows : list R) : list R :=
  map (fun r => if Nat.eqb (key r) i then f r else r) rows.

Definition find_by {R} (key : R -> Id) (i : Id) (rows : list R) : option R :=
  find (fun r => Nat.eqb (key r) i) rows.

Definition with_transaction (f : list Transaction -> list Transaction)
    (d : Db) : Db :=
  mkDb (f (transaction d)) (blockchain_transaction d)
       (blockchain_curation_event d) (blockchain_sync_record d)
       (user d) (article d).

Definition with_blockchain_transaction
    (f : list BlockchainTransaction -> list BlockchainTransaction)
    (d : Db) : Db :=
  mkDb (transaction d) (f (blockchain_transaction d))
       (blockchain_curation_event d) (blockchain_sync_record d)
       (user d) (article d).

Definition with_curation_event (f : list CurationEvent -> list CurationEvent)
    (d : Db) : Db :=
  mkDb (transaction d) (blockchain_transaction d)
       (f (blockchain_curation_event d)) (blockchain_sync_record d)
       (user d) (article d).

Definition with_sync_record (r : option Z) (d : Db) : Db :=
  mkDb (transaction d) (blockchain_transaction d)
       (blockchain_curation_event d) r (user d) (article d).

Definition apply_write (w : Write) (d : Db) : Db :=
  match w with
  | MarkTransactionState i s r =>
      with_transaction (update_where tx_id i (set_tx_state s r)) d
  | MarkBlockchainTransactionState i s =>
      with_blockchain_transaction (update_where bc_id i (set_bc_state s)) d
  | InsertTransaction row =>
      with_transaction (fun rows => rows ++ [row]) d
  | InsertBlockchainTransaction row =>
      with_blockchain_transaction (fun rows => rows ++ [row]) d
  | UpdateBlockchainTransactionLink i t =>
      with_blockchain_transaction (update_where bc_id i (set_bc_link t)) d
  | InsertCurationEvents rows =>
      with_curation_event (fun old => old ++ rows) d
  | UpsertSyncRecord n =>
      with_sync_record (Some n) d
  end.

(** Calls that leave the process, in the order they are made. *)
Inductive MailType := donated | receivedDonation.

Inductive Call :=
| QueryFilter (range : option (Z * Z))
| SendPayment (to : string) (type : MailType) (tx : Id)
| TriggerPaymentReceivedDonation (actorId recipientId : Id) (tx : Id).

(** The Bull job being processed. *)
Record Job := mkJob {
  discarded : bool;
  progress : Z
}.

(** What a handler runs against.  [faults] is the schedule of store failures
    still to come: each write consumes one flag and fails when it is [true]
    (an exhausted schedule means no failure).  [committed] keeps the atomic
    units that reached the store, oldest first; [open_unit] is the unit of the
    transaction in progress. *)
Record World := mkWorld {
  db : Db;
  faults : list bool;
  committed : list (list Write);
  open_unit : list Write;
  job : Job;
  calls : list Call
}.

Definition M (A : Type) : Type := World -> World * result A.

Definition ret {A} (a : A) : M A := fun w => (w, Ok a).

Definition throw {A} (e : Error) : M A := fun w => (w, Err e).

Definition bind {A B} (m : M A) (k : A -> M B) : M B :=
  fun w => match m w with
           | (w', Ok a) => k a w'
           | (w', Err e) => (w', Err e)
           end.

Notation "x <- m ;; k" := (bind m (fun x => k))
  (at level 61, m at next level, right associativity).
Notation "m ;;; k" := (bind m (fun _ => k))
  (at level 61, right associativity).

Definition getDb : M Db := fun w => (w, Ok (db w)).

Definition write (wr : Write) : M unit := fun w =>
  match faults w with
  | true :: fs =>
      (mkWorld (db w) fs (committed w) (open_unit w) (job w) (calls w),
       Err DbError)
  | fs =>
      (mkWorld (apply_write wr (db w)) (tl fs) (committed w)
               (open_unit w ++ [wr]) (job w) (calls w),
       Ok tt)
  end.

(** [knex.transaction()] ... [trx.commit()], with [trx.rollback()] and a
    rethrow when the body throws. *)
Definition knex_transaction {A} (body : M A) : M A := fun w =>
  match body (mkWorld (db w) (faults w) (committed w) [] (job w) (calls w)) with
  | (w', Ok a) =>
      (mkWorld (db w') (faults w') (committed w' ++ [open_unit w']) []
               (job w') (calls w'),
       Ok a)
  | (w', Err e) =>
      (mkWorld (db w) (faults w') (committed w) [] (job w') (calls w'),
       Err e)
  end.

(** A service method takes an optional [trx]: with it the statement joins the
    open transaction, without it the statement commits alone. *)
Definition exec (trx : bool) (wr : Write) : M unit :=
  if trx then write wr else knex_transaction (write wr).

Definition job_discard : M unit := fun w =>
  (mkWorld (db w) (faults w) (committed w) (open_unit w)
           (mkJob true (progress (job w))) (calls w), Ok tt).

Definition job_progress (n : Z) : M unit := fun w =>
  (mkWorld (db w) (faults w) (committed w) (open_unit w)
           (mkJob (discarded (job w)) n) (calls w), Ok tt).

Definition call (c : Call) : M unit := fun w =>
  (mkWorld (db w) (faults w) (committed w) (open_unit w) (job w)
           (calls w ++ [c]), Ok tt).

(** ** Services *)

Definition next_id {R} (key : R -> Id) (rows : list R) : Id :=
  S (fold_right Nat.max 0%nat (map key rows)).

(** [BaseService.baseFindById] on the [transaction] table. *)
Definition baseFindById (d : Db) (id : Id) : option Transaction :=
  find_by tx_id id (transaction d).

(** Modelled from the spec: [PaymentService.findBlockchainTransactionById] is
    not among the sources; the store offers find-by-id on
    BlockchainTransaction rows, and a missing [providerTxId] finds nothing. *)
Definition findBlockchainTransactionById (d : Db) (id : option Id)
    : option BlockchainTransaction :=
  match id with
  | Some i => find_by bc_id i (blockchain_transaction d)
  | None => None
  end.

Definition findBlockchainTransactionByHash (d : Db) (txHash : string)
    : option BlockchainTransaction :=
  find (fun b => String.eqb (bc_txHash b) txHash) (blockchain_transaction d).

(** Modelled from the spec: [PaymentService.findOrCreateBlockchainTransaction]
    is not among the sources.  A BlockchainTransaction is unique on
    (chain, txHash) and is created lazily the first time a tx hash is
    observed; the state given by the caller is used for a created row only. *)
Definition findOrCreateBlockchainTransaction (env : Env) (txHash : string)
    (state : option BLOCKCHAIN_TRANSACTION_STATE) : M BlockchainTransaction :=
  d <- getDb ;;
  match findBlockchainTransactionByHash d txHash with
  | Some b => ret b
  | None =>
      let row :=
        mkBlockchainTransaction
          (next_id bc_id (blockchain_transaction d)) txHash
          (match state with
           | Some s => s
           | None => defaultBlockchainTransactionState env
           end)
          None in
      exec false (InsertBlockchainTransaction row) ;;;
      ret row
  end.

(** Modelled from the spec: [PaymentService.markTransactionStateAs] is not
    among the sources; it sets the state of a ledger row and, when one is
    given, its remark. *)
Definition markTransactionStateAs (id : Id) (state : TRANSACTION_STATE)
    (remark : option TRANSACTION_REMARK) (trx : bool) : M unit :=
  exec trx (MarkTransactionState id state remark).

(** Modelled from the spec: [PaymentService.markBlockchainTransactionStateAs]
    is not among the sources; it sets the state of a BlockchainTransaction. *)
Definition markBlockchainTransactionStateAs (id : Id)
    (state : BLOCKCHAIN_TRANSACTION_STATE) (trx : bool) : M unit :=
  exec trx (MarkBlockchainTransactionState id state).

(** Modelled from the spec: [PaymentService.createTransaction] is not among
    the sources; it inserts a ledger row with the given fields under a new id
    and returns the row. *)
Definition createTransaction (amount : string) (state : TRANSACTION_STATE)
    (purpose : TRANSACTION_PURPOSE) (currency : PAYMENT_CURRENCY)
    (provider : PAYMENT_PROVIDER) (providerTxId recipientId senderId
    targetId : Id) (trx : bool) : M Transaction :=
  d <- getDb ;;
  let row :=
    mkTransaction (next_id tx_id (transaction d)) state None purpose currency
                  provider (Some providerTxId) (Some senderId)
                  (Some recipientId) (Some targetId) amount in
  exec trx (InsertTransaction row) ;;;
  ret row.

(** [baseUpdate(id, { transactionId }, 'blockchain_transaction', trx)]. *)
Definition baseUpdate_transactionId (id transactionId : Id) (trx : bool)
    : M unit :=
  exec trx (UpdateBlockchainTransactionLink id transactionId).

(** Modelled from the spec: [BaseService.baseBatchCreate] is not among the
    sources; it batch-inserts the given rows in the caller's atomic unit. *)
Definition baseBatchCreate (rows : list CurationEvent) (trx : bool) : M unit :=
  exec trx (InsertCurationEvents rows).

(** [baseUpdateOrCreate] on the sync record of (chainId, contractAddress). *)
Definition baseUpdateOrCreate_syncRecord (blockNumber : Z) : M unit :=
  exec false (UpsertSyncRecord blockNumber).

Definition userBaseFindById (d : Db) (id : option Id) : option User :=
  match id with
  | Some i => find_by u_id i (user d)
  | None => None
  end.

(** Modelled from the spec: [UserService.findByEthAddress] is not among the
    sources; it resolves a wallet address to the platform user holding it. *)
Definition findByEthAddress (d : Db) (address : string) : option User :=
  find (fun u => match u_ethAddress u with
                 | Some a => String.eqb a address
                 | None => false
                 end) (user d).

(** [articleService.baseFind({ where: { author_id, data_hash } })]. *)
Definition articleBaseFind (d : Db) (authorId : Id) (dataHash : string)
    : list Article :=
  filter (fun a => andb (Nat.eqb (a_authorId a) authorId)
                        (String.eqb (a_dataHash a) dataHash)) (article d).

Definition findFirstArticle (d : Db) (id : option Id) : option Article :=
  match id with
  | Some i => find_by a_id i (article d)
  | None => None
  end.

(** ** PayToByBlockchainQueue *)

Section Queue.

Variable env : Env.
Variable provider : Provider.

(** *** helpers *)

Definition updateTxAndBlockchainTxState (txId : Id)
    (txState : TRANSACTION_STATE) (txRemark : option TRANSACTION_REMARK)
    (blockchainTxId : Id) (blockchainTxState : BLOCKCHAIN_TRANSACTION_STATE)
    : M unit :=
  knex_transaction
    (markTransactionStateAs txId txState txRemark true ;;;
     markBlockchainTransactionStateAs blockchainTxId blockchainTxState true).

Definition failBothTxAndBlockchainTx (txId blockchainTxId : Id) : M unit :=
  updateTxAndBlockchainTxState txId failed None blockchainTxId bc_reverted.

Definition succeedBothTxAndBlockchainTx (txId blockchainTxId : Id) : M unit :=
  updateTxAndBlockchainTxState txId succeeded None blockchainTxId bc_succeeded.

Definition resetBothTxAndBlockchainTx (txId blockchainTxId : Id) : M unit :=
  updateTxAndBlockchainTxState txId pending None blockchainTxId bc_pending.

(** The transfer a ledger row claims to have made. *)
Record Expected := mkExpected {
  curatorAddress : option string;
  creatorAddress : option string;
  cid : string;
  tokenAddress : string;
  expectedAmount : string;
  decimals : Z
}.

(** JavaScript truthiness of an optional string. *)
Definition truthy (s : option string) : bool :=
  match s with
  | Some a => negb (String.eqb a "")
  | None => false
  end.

Definition first_topic_is (t : string) (log : Log) : bool :=
  match log_topics log with
  | t0 :: _ => String.eqb t0 t
  | [] => false
  end.

(** The condition under which the loop of [containMatchedEvent] returns
    [true] at a log, for addresses known to be present. *)
Definition logMatches (curatorAddress creatorAddress : string) (p : Expected)
    (log : Log) : bool :=
  andb
    (andb (String.eqb (Str.toLowerCase (log_address log)) (contractAddress env))
          (first_topic_is topic log))
    (let event := log_args log in
     andb (ignoreCaseMatch (curator event) curatorAddress)
    (andb (ignoreCaseMatch (creator event) creatorAddress)
    (andb (ignoreCaseMatch (token event) (tokenAddress p))
    (andb (Z.eqb (amount event)
                 (toTokenBaseUnit env (expectedAmount p) (decimals p)))
    (andb (isValidUri (uri event))
          (String.eqb (extractCid (uri event)) (cid p))))))).

Definition containMatchedEvent (logs : list Log) (p : Expected) : bool :=
  match logs with
  | [] => false
  | _ =>
      if orb (negb (truthy (curatorAddress p)))
             (negb (truthy (creatorAddress p)))
      then false
      else
        match curatorAddress p, creatorAddress p with
        | Some curatorAddress, Some creatorAddress =>
            existsb (logMatches curatorAddress creatorAddress p) logs
        | _, _ => false
        end
  end.

(** *** Pay-to handler *)

Definition handlePayTo (txId : Id) : M unit :=
  d <- getDb ;;
  match baseFindById d txId with
  | None =>
      job_discard ;;;
      throw (PaymentQueueJobDataError "pay-to pending tx not found")
  | Some tx =>
  if negb (provider_eqb (tx_provider tx) blockchain) then
      job_discard ;;;
      throw (PaymentQueueJobDataError "wrong pay-to queue")
  else
  match findBlockchainTransactionById d (tx_providerTxId tx) with
  | None =>
      job_discard ;;;
      throw (PaymentQueueJobDataError "blockchain transaction not found")
  | Some blockchainTx =>
  match getTransactionReceipt provider (bc_txHash blockchainTx) with
  | None =>
      throw (PaymentQueueJobDataError "blockchain transaction not mined")
  | Some txReceipt =>
  if Z.eqb (status txReceipt) 0 then
      failBothTxAndBlockchainTx txId (bc_id blockchainTx)
  else
  match userBaseFindById d (tx_recipientId tx),
        userBaseFindById d (tx_senderId tx),
        findFirstArticle d (tx_targetId tx) with
  | Some recipient, Some sender, Some articleDb =>
      if negb (containMatchedEvent (logs txReceipt)
                 (mkExpected (u_ethAddress sender) (u_ethAddress recipient)
                             (a_dataHash articleDb) (USDTContractAddress env)
                             (tx_amount tx) (USDTContractDecimals env)))
      then
        updateTxAndBlockchainTxState txId canceled (Some INVALID)
                                     (bc_id blockchainTx) bc_succeeded
      else
        succeedBothTxAndBlockchainTx txId (bc_id blockchainTx) ;;;
        d' <- getDb ;;
        match find_by u_id (a_authorId articleDb) (user d') with
        | None => throw TypeError
        | Some _ =>
            call (SendPayment (u_email sender) donated txId) ;;;
            call (TriggerPaymentReceivedDonation (u_id sender)
                    (u_id recipient) txId) ;;;
            call (SendPayment (u_email recipient) receivedDonation txId) ;;;
            job_progress 100
        end
  | _, _, _ => throw TypeError
  end
  end
  end
  end.

(** *** Event synchronizer *)

(** The row pushed to [eventsToBatchCreate] for an added event. *)
Definition mirrorRow (blockchainTx : BlockchainTransaction) (event : Event)
    : CurationEvent :=
  mkCurationEvent (bc_id blockchainTx) (contractAddress env)
    (Str.toLowerCase (curator (args event)))
    (Str.toLowerCase (creator (args event)))
    (Str.toLowerCase (token (args event)))
    (amount (args event))
    (uri (args event)).

Definition is_some {A} (o : option A) : bool :=
  match o with Some _ => true | None => false end.

Definition opt_id_eqb (o : option Id) (i : Id) : bool :=
  match o with Some j => Nat.eqb j i | None => false end.

(** The cancel-and-replace unit of the mismatch branch. *)
Definition cancelAndReplace (tx : Transaction)
    (blockchainTx : BlockchainTransaction) (amount : string)
    (creatorUser curatorUser : User) (article : Article) : M unit :=
  knex_transaction
    (markTransactionStateAs (tx_id tx) canceled (Some INVALID) true ;;;
     newTx <- createTransaction amount succeeded donation USDT blockchain
                (bc_id blockchainTx) (u_id creatorUser) (u_id curatorUser)
                (a_id article) true ;;
     baseUpdate_transactionId (bc_id blockchainTx) (tx_id newTx) true).

(** The create-and-link unit of the branch with no related ledger row. *)
Definition createAndLink (blockchainTx : BlockchainTransaction)
    (amount : string) (creatorUser curatorUser : User) (article : Article)
    : M unit :=
  knex_transaction
    (tx <- createTransaction amount succeeded donation USDT blockchain
             (bc_id blockchainTx) (u_id creatorUser) (u_id curatorUser)
             (a_id article) true ;;
     baseUpdate_transactionId (bc_id blockchainTx) (tx_id tx) true).

(** What follows [eventsToBatchCreate.push(data)] for an added event; each
    [continue] of the loop is a [ret tt]. *)
Definition reconcileDonation (event : Event)
    (blockchainTx : BlockchainTransaction) (data : CurationEvent) : M unit :=
  if andb (is_some (bc_transactionId blockchainTx))
          (bc_state_eqb (bc_state blockchainTx) bc_succeeded)
  then ret tt
  else if negb (String.eqb (ce_tokenAddress data) (USDTContractAddress env))
  then ret tt
  else if negb (isValidUri (ce_uri data))
  then ret tt
  else
    d <- getDb ;;
    match findByEthAddress d (ce_curatorAddress data) with
    | None => ret tt
    | Some curatorUser =>
    match findByEthAddress d (ce_creatorAddress data) with
    | None => ret tt
    | Some creatorUser =>
    match articleBaseFind d (u_id creatorUser) (extractCid (ce_uri data)) with
    | [] => ret tt
    | article :: _ =>
    let amount :=
      fromTokenBaseUnit env (amount (args event)) (USDTContractDecimals env) in
    match bc_transactionId blockchainTx with
    | Some transactionId =>
        match baseFindById d transactionId with
        | None => throw TypeError
        | Some tx =>
            if andb (opt_id_eqb (tx_senderId tx) (u_id curatorUser))
              (andb (opt_id_eqb (tx_recipientId tx) (u_id creatorUser))
              (andb (opt_id_eqb (tx_targetId tx) (a_id article))
                    (Z.eqb (toTokenBaseUnit env (tx_amount tx)
                              (USDTContractDecimals env))
                           (ce_amount data))))
            then markTransactionStateAs (tx_id tx) succeeded None false
            else cancelAndReplace tx blockchainTx amount creatorUser
                                  curatorUser article
        end
    | None =>
        createAndLink blockchainTx amount creatorUser curatorUser article
    end
    end
    end
    end.

(** The reorg branch, once the retracted hash has a linked ledger row. *)
Definition resolveReorg (blockchainTx : BlockchainTransaction)
    (transactionId : Id) (event : Event) : M unit :=
  d <- getDb ;;
  let tx := baseFindById d transactionId in
  let receipt := getTransactionReceipt provider (transactionHash event) in
  match tx with
  | None => throw TypeError
  | Some tx =>
      (if tx_state_eqb (tx_state tx) succeeded then
         (match receipt with
          | None =>
              resetBothTxAndBlockchainTx transactionId (bc_id blockchainTx)
          | Some _ => ret tt
          end) ;;;
         (match receipt with
          | Some r =>
              if Z.eqb (status r) 0
              then failBothTxAndBlockchainTx transactionId
                                             (bc_id blockchainTx)
              else ret tt
          | None => ret tt
          end)
       else ret tt) ;;;
      (if tx_state_eqb (tx_state tx) failed then
         match receipt with
         | Some r =>
             if Z.eqb (status r) 1
             then succeedBothTxAndBlockchainTx transactionId
                                               (bc_id blockchainTx)
             else ret tt
         | None => ret tt
         end
       else ret tt)
  end.

(** One turn of the loop of [syncCurationEvents]: the rows it pushes to
    [eventsToBatchCreate]. *)
Definition syncCurationEvent (event : Event) : M (list CurationEvent) :=
  if negb (removed event) then
    blockchainTx <- findOrCreateBlockchainTransaction env
                      (transactionHash event) (Some bc_succeeded) ;;
    let data := mirrorRow blockchainTx event in
    reconcileDonation event blockchainTx data ;;;
    ret [data]
  else
    blockchainTx <- findOrCreateBlockchainTransaction env
                      (transactionHash event) None ;;
    match bc_transactionId blockchainTx with
    | None => ret []
    | Some transactionId =>
        resolveReorg blockchainTx transactionId event ;;;
        ret []
    end.

Fixpoint syncLoop (events : list Event) (eventsToBatchCreate : list CurationEvent)
    : M (list CurationEvent) :=
  match events with
  | [] => ret eventsToBatchCreate
  | event :: rest =>
      pushed <- syncCurationEvent event ;;
      syncLoop rest (eventsToBatchCreate ++ pushed)
  end.

Definition syncCurationEvents (events : list Event) : M nat :=
  eventsToBatchCreate <- syncLoop events [] ;;
  (if Z.geb (Z.of_nat (length eventsToBatchCreate)) 0
   then knex_transaction (baseBatchCreate eventsToBatchCreate true)
   else ret tt) ;;;
  ret (length events).

(** JavaScript falsiness of [fromBlockNum]: undefined or zero. *)
Definition falsy (n : option Z) : bool :=
  match n with
  | Some z => Z.eqb z 0
  | None => true
  end.

Definition _handleSyncCurationEvents : M unit :=
  let safeBlockNum :=
    getBlockNumber provider - BLOCKCHAIN_SAFE_CONFIRMS_Polygon env in
  d <- getDb ;;
  let record := blockchain_sync_record d in
  let fromBlockNum := option_map (fun n => n + 1) record in
  toBlockNum <-
    (if falsy fromBlockNum then
       call (QueryFilter None) ;;;
       let events := queryFilter provider None in
       let filtered :=
         filter (fun e => Z.leb (blockNumber e) safeBlockNum) events in
       syncCurationEvents filtered ;;;
       if Nat.eqb (length events) (length filtered)
       then ret safeBlockNum
       else match nth_error filtered (length filtered - 1) with
            | Some e => ret (blockNumber e)
            | None => throw TypeError
            end
     else
       let fromBlockNum := match fromBlockNum with Some n => n | None => 0 end in
       let toBlockNum := Z.min safeBlockNum (fromBlockNum + 1999) in
       call (QueryFilter (Some (fromBlockNum, toBlockNum))) ;;;
       syncCurationEvents
         (queryFilter provider (Some (fromBlockNum, toBlockNum))) ;;;
       ret toBlockNum) ;;
  baseUpdateOrCreate_syncRecord toBlockNum.

End Queue.

(** ** What the specification calls things *)

(** State and remark of a ledger row, state of a blockchain-transaction row. *)
Definition ledgerState (d : Db) (id : Id)
    : option (TRANSACTION_STATE * option TRANSACTION_REMARK) :=
  option_map (fun t => (tx_state t, tx_remark t)) (baseFindById d id).

Definition chainState (d : Db) (id : Id)
    : option BLOCKCHAIN_TRANSACTION_STATE :=
  option_map bc_state (find_by bc_id id (blockchain_transaction d)).

(** The job data of a pay-to job is well formed when the ledger row exists,
    is paid through the blockchain provider and has its blockchain
    transaction. *)
Definition wellFormedJob (d : Db) (txId : Id)
    : option (Transaction * BlockchainTransaction) :=
  match baseFindById d txId with
  | None => None
  | Some tx =>
      if provider_eqb (tx_provider tx) blockchain then
        match findBlockchainTransactionById d (tx_providerTxId tx) with
        | Some b => Some (tx, b)
        | None => None
        end
      else None
  end.

(** Referential integrity of what a pay-to job loads: recipient, sender,
    target article and its author exist. *)
Definition payToEntitiesExist (d : Db) (txId : Id) : bool :=
  match baseFindById d txId with
  | None => true
  | Some tx =>
      match userBaseFindById d (tx_recipientId tx),
            userBaseFindById d (tx_senderId tx),
            findFirstArticle d (tx_targetId tx) with
      | Some _, Some _, Some articleDb =>
          is_some (find_by u_id (a_authorId articleDb) (user d))
      | _, _, _ => false
      end
  end.

(** The matching condition of the specification on one receipt log: watched
    contract address, event topic, curator, creator and token compared
    case-insensitively, amount equal to the base-unit conversion of the
    ledger amount, recognized URI carrying the expected content identifier. *)
Definition specLogMatches (env : Env) (p : Expected) (log : Log) : bool :=
  let event := log_args log in
  andb (ignoreCaseMatch (log_address log) (curationContractAddress env))
 (andb (first_topic_is topic log)
 (andb (match curatorAddress p with
        | Some a => ignoreCaseMatch (curator event) a
        | None => false
        end)
 (andb (match creatorAddress p with
        | Some a => ignoreCaseMatch (creator event) a
        | None => false
        end)
 (andb (ignoreCaseMatch (token event) (tokenAddress p))
 (andb (Z.eqb (amount event)
              (toTokenBaseUnit env (expectedAmount p) (decimals p)))
 (andb (isValidUri (uri event))
       (String.eqb (extractCid (uri event)) (cid p)))))))).

(** What a pay-to job expects of the receipt of ledger row [tx]. *)
Definition expectedOf (env : Env) (tx : Transaction) (sender recipient : User)
    (articleDb : Article) : Expected :=
  mkExpected (u_ethAddress sender) (u_ethAddress recipient)
             (a_dataHash articleDb) (USDTContractAddress env)
             (tx_amount tx) (USDTContractDecimals env).

(** The unit the shared helper commits, and the effect of a unit. *)
Definition pairUnit (txId : Id) (txState : TRANSACTION_STATE)
    (txRemark : option TRANSACTION_REMARK) (blockchainTxId : Id)
    (blockchainTxState : BLOCKCHAIN_TRANSACTION_STATE) : list Write :=
  [MarkTransactionState txId txState txRemark;
   MarkBlockchainTransactionState blockchainTxId blockchainTxState].

Definition apply_unit (u : list Write) (d : Db) : Db :=
  fold_left (fun d w => apply_write w d) u d.

(** World after a handler ran, and what the handler returned or threw. *)
Definition after {A} (m : M A) (w : World) : World := fst (m w).

Definition outcome {A} (m : M A) (w : World) : result A := snd (m w).

(** A handler run ends in a retryable error when it throws and the job was
    not discarded. *)
Definition throws {A} (r : result A) : bool :=
  match r with Err _ => true | Ok _ => false end.

Definition retryable {A} (m : M A) (w : World) : bool :=
  andb (throws (outcome m w)) (negb (discarded (job (after m w)))).

Definition discardedWithError {A} (m : M A) (w : World) : bool :=
  andb (throws (outcome m w)) (discarded (job (after m w))).

(** The reorg-resolution table of the specification: the pair of states a
    retracted transaction moves to, from the state of its ledger row and the
    receipt the chain now reports; [None] when the pair stays as it is. *)
Definition reorgResolution (s : TRANSACTION_STATE) (receipt : option Receipt)
    : option (TRANSACTION_STATE * BLOCKCHAIN_TRANSACTION_STATE) :=
  match s, receipt with
  | succeeded, None => Some (pending, bc_pending)
  | succeeded, Some r =>
      if Z.eqb (status r) 0 then Some (failed, bc_reverted) else None
  | failed, Some r =>
      if Z.eqb (status r) 1 then Some (succeeded, bc_succeeded) else None
  | _, _ => None
  end.

(** The row find-or-create inserts for a hash it has not seen. *)
Definition lazyBlockchainTransaction (env : Env) (d : Db) (txHash : string)
    (state : option BLOCKCHAIN_TRANSACTION_STATE) : BlockchainTransaction :=
  mkBlockchainTransaction
    (next_id bc_id (blockchain_transaction d)) txHash
    (match state with
     | Some s => s
     | None => defaultBlockchainTransactionState env
     end)
    None.

(** An added event decodes to an in-platform donation when its token is the
    configured stablecoin, its URI is of the recognized scheme, curator and
    creator resolve to platform users by wallet address, and the content
    identifier of the URI is that of an article of the creator. *)
Definition inPlatformDonation (env : Env) (d : Db) (ev : Event)
    : option (User * User * Article) :=
  if andb (String.eqb (Str.toLowerCase (token (args ev)))
                      (USDTContractAddress env))
          (isValidUri (uri (args ev)))
  then
    match findByEthAddress d (Str.toLowerCase (curator (args ev))),
          findByEthAddress d (Str.toLowerCase (creator (args ev))) with
    | Some curatorUser, Some creatorUser =>
        match articleBaseFind d (u_id creatorUser)
                (extractCid (uri (args ev))) with
        | article :: _ => Some (curatorUser, creatorUser, article)
        | [] => None
        end
    | _, _ => None
    end
  else None.

(** The ledger row agrees with a decoded donation when sender, recipient,
    target and amount are the decoded ones. *)
Definition ledgerAgrees (env : Env) (tx : Transaction)
    (curatorUser creatorUser : User) (article : Article) (baseUnits : Z)
    : bool :=
  andb (opt_id_eqb (tx_senderId tx) (u_id curatorUser))
 (andb (opt_id_eqb (tx_recipientId tx) (u_id creatorUser))
 (andb (opt_id_eqb (tx_targetId tx) (a_id article))
       (Z.eqb (toTokenBaseUnit env (tx_amount tx) (USDTContractDecimals env))
              baseUnits))).



(** Whether one of the next [n] writes is scheduled to fail. *)
Definition faultWithin (n : nat) (w : World) : bool :=
  existsb (fun f => f) (firstn n (faults w)).

(** The added (not removed) events of a batch, and what it means for a
    mirror row to be the row of an added event. *)
Definition addedEvents (events : list Event) : list Event :=
  filter (fun e => negb (removed e)) events.

Definition mirrors (env : Env) (row : CurationEvent) (ev : Event) : Prop :=
  exists b, bc_txHash b = transactionHash ev /\ row = mirrorRow env b ev.


(** ** Frames *)

(** A handler respects a relation between worlds when every run of it is
    related to the world it started from. *)
Definition respects (R : World -> World -> Prop) {A} (m : M A) : Prop :=
  forall w, R w (after m w).

(** Writes of the per-event reconciliation: anything but the mirror insert
    and the cursor upsert. *)
Definition reconciling (wr : Write) : bool :=
  match wr with
  | InsertCurationEvents _ | UpsertSyncRecord _ => false
  | _ => true
  end.

(** What the loop of [syncCurationEvents] leaves alone: the mirror table,
    the sync record, the calls made so far; and it injects no store failure
    of its own. *)
Definition loopFrame (w w' : World) : Prop :=
  blockchain_curation_event (db w') = blockchain_curation_event (db w)
  /\ blockchain_sync_record (db w') = blockchain_sync_record (db w)
  /\ calls w' = calls w
  /\ (faults w = [] -> faults w' = []).

(** What [syncCurationEvents] as a whole leaves alone. *)
Definition cursorFrame (w w' : World) : Prop :=
  blockchain_sync_record (db w') = blockchain_sync_record (db w)
  /\ calls w' = calls w
  /\ (faults w = [] -> faults w' = []).

(** A unit writes a terminal ledger state when it marks a ledger row
    succeeded, failed or canceled. *)
Definition writesTerminal (u : list Write) : bool :=
  existsb (fun wr => match wr with
                     | MarkTransactionState _ s _ => terminal s
                     | _ => false
                     end) u.

(** The units of the shared helper: the ledger state and the state of the
    blockchain transaction, together. *)
Definition isPairUnit (u : list Write) : bool :=
  match u with
  | [MarkTransactionState _ _ _; MarkBlockchainTransactionState _ _] => true
  | _ => false
  end.

(** A unit goes through the helper when, if it writes a terminal ledger
    state at all, it is one of the helper's paired units. *)
Definition throughHelper (u : list Write) : bool :=
  implb (writesTerminal u) (isPairUnit u).

(** The units committed between two worlds all go through the helper. *)
Definition helperGrowth (w w' : World) : Prop :=
  exists us, committed w' = committed w ++ us
             /\ forallb throughHelper us = true.

(** ** Sync runs *)

Definition cursor (w : World) : option Z := blockchain_sync_record (db w).

Definition safeHeight (env : Env) (provider : Provider) : Z :=
  getBlockNumber provider - BLOCKCHAIN_SAFE_CONFIRMS_Polygon env.

Definition withinSafe (safe : Z) (events : list Event) : list Event :=
  filter (fun e => Z.leb (blockNumber e) safe) events.

(** The order on cursors: no cursor yet is below every cursor. *)
Definition cursor_le (a b : option Z) : Prop :=
  match a, b with
  | None, _ => True
  | Some x, Some y => x <= y
  | Some _, None => False
  end.

(** First block a log query asks for; ethers' [queryFilter] starts at block 0
    when it is given no range. *)
Definition fromBlockOf (range : option (Z * Z)) : Z :=
  match range with
  | Some (fromBlock, _) => fromBlock
  | None => 0
  end.

(** The worlds a sequence of sync runs goes through, one chain view per
    run; a run that throws leaves what it had committed. *)
Fixpoint syncRuns (env : Env) (providers : list Provider) (w : World)
    : list World :=
  match providers with
  | [] => []
  | p :: ps =>
      let w' := after (_handleSyncCurationEvents env p) w in
      w' :: syncRuns env ps w'
  end.

(** Consecutive pairs of a list. *)
Fixpoint steps {A} (l : list A) : list (A * A) :=
  match l with
  | a :: (b :: _) as rest => (a, b) :: steps rest
  | _ => []
  end.

Fixpoint nonDecreasing (l : list Z) : bool :=
  match l with
  | a :: (b :: _) as rest => andb (Z.leb a b) (nonDecreasing rest)
  | _ => true
  end.

(** Block numbers are not negative. *)
Definition blocksNonNegative (provider : Provider) : Prop :=
  forall range e, In e (queryFilter provider range) -> 0 <= blockNumber e.

(** What one sync run does to the cursor and asks of the chain. *)
Definition cursorStep (w w' : World) : Prop :=
  cursor_le (cursor w) (cursor w')
  /\ exists range,
       calls w' = calls w ++ [QueryFilter range]
       /\ forall c, cursor w = Some c ->
                    fromBlockOf range = c + 1
                    /\ (c <> -1 -> exists toBlock, range = Some (c + 1, toBlock)).

(** ** Sample data *)

Module Sample.

Definition parseUnits (amount : string) (decimals : Z) : Z :=
  if String.eqb amount "10" then 10 * 10 ^ decimals
  else if String.eqb amount "25" then 25 * 10 ^ decimals
  else 0.

Definition env : Env :=
  mkEnv "0xC0FFEE" "0xusdt" 6 12 parseUnits (fun _ _ => "10") bc_pending.

Definition alice : User := mkUser 1 (Some "0xaa") "alice@matters.test".
Definition bob : User := mkUser 2 (Some "0xbb") "bob@matters.test".
Definition carol : User := mkUser 3 None "carol@matters.test".

Definition essay : Article := mkArticle 7 2 "Qm1".
Definition note : Article := mkArticle 8 3 "Qm2".

(** Alice donates 10 USDT to Bob for [essay]. *)
Definition donation1 : Transaction :=
  mkTransaction 1 pending None donation USDT blockchain (Some 1%nat)
                (Some 1%nat) (Some 2%nat) (Some 7%nat) "10".

(** Alice donates 10 USDT to Carol, who has no wallet, for [note]. *)
Definition donation2 : Transaction :=
  mkTransaction 2 pending None donation USDT blockchain (Some 2%nat)
                (Some 1%nat) (Some 3%nat) (Some 8%nat) "10".

Definition chainTx1 : BlockchainTransaction :=
  mkBlockchainTransaction 1 "0xh1" bc_pending (Some 1%nat).

Definition chainTx2 : BlockchainTransaction :=
  mkBlockchainTransaction 2 "0xh2" bc_pending (Some 2%nat).

Definition store : Db :=
  mkDb [donation1; donation2] [chainTx1; chainTx2] [] None
       [alice; bob; carol] [essay; note].

Definition world (d : Db) : World := mkWorld d [] [] [] (mkJob false 0) [].

Definition curation (amount : Z) : CurationArgs :=
  mkArgs "0xAA" "0xBB" "0xUSDT" "ipfs://Qm1" amount.

Definition curationLog (amount : Z) : Log :=
  mkLog "0xc0ffee" [topic] (curation amount).

(** A chain on which both transactions are mined with status 1; the log of
    the first one carries [amount] base units. *)
Definition chain (height : Z) (amount : Z) (events : list Event) : Provider :=
  mkProvider height (fun _ => events)
    (fun h => if String.eqb h "0xh1" then Some (mkReceipt 1 [curationLog amount])
              else if String.eqb h "0xh2" then Some (mkReceipt 1 [curationLog amount])
              else None).

(** The store once Alice's donation has settled. *)
Definition settled : Db :=
  mkDb [set_tx_state succeeded None donation1; donation2]
       [set_bc_state bc_succeeded chainTx1; chainTx2] [] None
       [alice; bob; carol] [essay; note].

(** A chain that reports no receipt at all. *)
Definition unminedChain (height : Z) (events : list Event) : Provider :=
  mkProvider height (fun _ => events) (fun _ => None).

Definition added (block : Z) (txHash : string) (amount : Z) : Event :=
  mkEvent block false txHash (curation amount).

Definition retracted (block : Z) (txHash : string) : Event :=
  mkEvent block true txHash (curation 10000000).

(** The catch-up scenario: height 1000, events at blocks 500, 990, 995. *)
Definition catchUpChain : Provider :=
  chain 1000 10000000
    [added 500 "0xe1" 10000000; added 990 "0xe2" 10000000;
     added 995 "0xe3" 10000000].

(** The incremental scenario: cursor 2000, safe height 5000. *)
Definition incrementalChain : Provider := chain 5012 10000000 [].

Definition synced (n : Z) : Db := with_sync_record (Some n) store.

End Sample.

(** ** Strings and tables *)

Lemma lower_ascii_idem c : Str.lower_ascii (Str.lower_ascii c) = Str.lower_ascii c.
Proof.
  destruct c as [[] [] [] [] [] [] [] []]; reflexivity.
Qed.

Lemma toLowerCase_idem s : Str.toLowerCase (Str.toLowerCase s) = Str.toLowerCase s.
Proof.
  induction s as [|c s IH]; simpl; [reflexivity|].
  now rewrite lower_ascii_idem, IH.
Qed.

Section Tables.

Context {R : Type}.

Lemma find_map_compat (p : R -> bool) (g : R -> R) (rows : list R) :
  (forall r, p (g r) = p r) ->
  find p (map g rows) = option_map g (find p rows).
Proof.
  intros Hp. induction rows as [|r rows IH]; simpl; [reflexivity|].
  rewrite Hp. destruct (p r); [reflexivity | exact IH].
Qed.

Variable key : R -> Id.

Lemma find_by_key i rows r : find_by key i rows = Some r -> key r = i.
Proof.
  unfold find_by. intros H. apply find_some in H.
  now apply Nat.eqb_eq.
Qed.

Lemma find_by_update i j (f : R -> R) rows :
  (forall r, key (f r) = key r) ->
  find_by key i (update_where key j f rows)
  = option_map (fun r => if Nat.eqb (key r) j then f r else r)
               (find_by key i rows).
Proof.
  intros Hk. unfold find_by, update_where.
  apply find_map_compat. intros r.
  destruct (Nat.eqb (key r) j); [now rewrite Hk | reflexivity].
Qed.

Lemma find_by_update_same i (f : R -> R) rows r :
  (forall r, key (f r) = key r) ->
  find_by key i rows = Some r ->
  find_by key i (update_where key i f rows) = Some (f r).
Proof.
  intros Hk H. rewrite find_by_update by exact Hk. rewrite H. simpl.
  apply find_by_key in H. now rewrite H, Nat.eqb_refl.
Qed.

Lemma find_by_snoc i rows r :
  find_by key i (rows ++ [r])
  = match find_by key i rows with
    | Some x => Some x
    | None => if Nat.eqb (key r) i then Some r else None
    end.
Proof.
  unfold find_by.
  induction rows as [|x rows IH]; simpl; [reflexivity|].
  destruct (Nat.eqb (key x) i); [reflexivity | exact IH].
Qed.



Lemma find_by_In r rows :
  In r rows -> exists r', find_by key (key r) rows = Some r'.
Proof.
  unfold find_by. induction rows as [|x rows IH]; simpl; [tauto|].
  intros [->|H].
  - rewrite Nat.eqb_refl. eauto.
  - destruct (Nat.eqb (key x) (key r)); eauto.
Qed.

Lemma update_where_length i (f : R -> R) rows :
  length (update_where key i f rows) = length rows.
Proof. apply length_map. Qed.

End Tables.

Lemma set_tx_state_id s r t : tx_id (set_tx_state s r t) = tx_id t.
Proof. reflexivity. Qed.

Lemma set_bc_state_id s b : bc_id (set_bc_state s b) = bc_id b.
Proof. reflexivity. Qed.


(** ** Running the helpers when the store does not fail *)

Lemma updateTxAndBlockchainTxState_run txId s r bid bs w :
  faults w = [] ->
  updateTxAndBlockchainTxState txId s r bid bs w
  = (mkWorld (apply_unit (pairUnit txId s r bid bs) (db w)) []
             (committed w ++ [pairUnit txId s r bid bs]) []
             (job w) (calls w), Ok tt).
Proof.
  intros Hf.
  unfold updateTxAndBlockchainTxState, knex_transaction,
    markTransactionStateAs, markBlockchainTransactionStateAs, exec, bind, write.
  simpl. rewrite Hf. reflexivity.
Qed.

Lemma ledgerState_pair d txId s r bid bs tx :
  baseFindById d txId = Some tx ->
  ledgerState (apply_unit (pairUnit txId s r bid bs) d) txId
  = Some (s, match r with Some _ => r | None => tx_remark tx end).
Proof.
  intros H. unfold ledgerState, baseFindById in *. simpl.
  rewrite (find_by_update_same tx_id _ (set_tx_state s r) _ _ (set_tx_state_id s r) H).
  reflexivity.
Qed.

Lemma chainState_pair d txId s r bid bs b :
  find_by bc_id bid (blockchain_transaction d) = Some b ->
  chainState (apply_unit (pairUnit txId s r bid bs) d) bid = Some bs.
Proof.
  intros H. unfold chainState. simpl.
  rewrite (find_by_update_same bc_id _ (set_bc_state bs) _ _ (set_bc_state_id bs) H).
  reflexivity.
Qed.

(** ** The pay-to verifier *)

Ltac run_pair Hf :=
  unfold failBothTxAndBlockchainTx, succeedBothTxAndBlockchainTx,
    resetBothTxAndBlockchainTx;
  rewrite (updateTxAndBlockchainTxState_run _ _ _ _ _ _ Hf).

(** [containMatchedEvent] answers [true] only when some log of the receipt
    satisfies the matching condition of the specification. *)
Lemma containMatchedEvent_sound env logs p :
  containMatchedEvent env logs p = true ->
  exists log, In log logs /\ specLogMatches env p log = true.
Proof.
  unfold containMatchedEvent.
  destruct logs as [|l0 ls]; [discriminate|].
  destruct (curatorAddress p) as [c|] eqn:Ec; simpl;
    [|intros; discriminate].
  destruct (creatorAddress p) as [k|] eqn:Ek; simpl;
    [|rewrite orb_true_r; intros; discriminate].
  destruct (negb (negb (String.eqb c "")) || negb (negb (String.eqb k "")))%bool;
    [discriminate|].
  intros H.
  assert (Hex : existsb (logMatches env c k p) (l0 :: ls) = true) by exact H.
  apply existsb_exists in Hex. destruct Hex as [log [Hin Hm]].
  exists log. split; [exact Hin|].
  unfold logMatches in Hm. unfold specLogMatches. rewrite Ec, Ek.
  unfold ignoreCaseMatch in *. unfold contractAddress in Hm.
  repeat (apply andb_prop in Hm; destruct Hm as [? Hm]).
  repeat match goal with
         | H : andb _ _ = true |- _ =>
             apply andb_prop in H; destruct H
         end.
  repeat (apply andb_true_intro; split); assumption.
Qed.

Lemma containMatchedEvent_no_match env logs p :
  (forall log, In log logs -> specLogMatches env p log = false) ->
  containMatchedEvent env logs p = false.
Proof.
  intros Hno.
  destruct (containMatchedEvent env logs p) eqn:E; [|reflexivity].
  apply containMatchedEvent_sound in E. destruct E as [log [Hin Hm]].
  rewrite (Hno log Hin) in Hm. discriminate.
Qed.

Lemma containMatchedEvent_no_address env logs p :
  curatorAddress p = None \/ creatorAddress p = None ->
  containMatchedEvent env logs p = false.
Proof.
  intros H. unfold containMatchedEvent.
  destruct logs; [reflexivity|].
  destruct H as [H|H]; rewrite H; simpl.
  - reflexivity.
  - now rewrite orb_true_r.
Qed.

(** The mismatch branch of [handlePayTo], once the job data is well formed,
    the receipt is mined with a status other than 0 and the entities load. *)
Lemma handlePayTo_mismatch env provider txId w tx b rc recipient sender articleDb :
  faults w = [] ->
  baseFindById (db w) txId = Some tx ->
  tx_provider tx = blockchain ->
  findBlockchainTransactionById (db w) (tx_providerTxId tx) = Some b ->
  getTransactionReceipt provider (bc_txHash b) = Some rc ->
  Z.eqb (status rc) 0 = false ->
  userBaseFindById (db w) (tx_recipientId tx) = Some recipient ->
  userBaseFindById (db w) (tx_senderId tx) = Some sender ->
  findFirstArticle (db w) (tx_targetId tx) = Some articleDb ->
  containMatchedEvent env (logs rc) (expectedOf env tx sender recipient articleDb)
    = false ->
  handlePayTo env provider txId w
  = (mkWorld
       (apply_unit (pairUnit txId canceled (Some INVALID) (bc_id b) bc_succeeded)
                   (db w))
       []
       (committed w
        ++ [pairUnit txId canceled (Some INVALID) (bc_id b) bc_succeeded])
       [] (job w) (calls w),
     Ok tt).
Proof.
  intros Hf Htx Hp Hb Hrc Hst Hr Hs Ha Hm.
  unfold handlePayTo, bind, getDb.
  rewrite Htx, Hp. simpl. rewrite Hb, Hrc, Hst, Hr, Hs, Ha.
  unfold expectedOf in Hm. rewrite Hm. simpl.
  now rewrite (updateTxAndBlockchainTxState_run _ _ _ _ _ _ Hf).
Qed.

(** C7.  A mined receipt with status 1 none of whose logs matches the
    expected transfer (watched contract address, event topic, curator,
    creator and token compared case-insensitively, amount equal to the
    base-unit conversion of the ledger amount, recognized URI with the
    expected content identifier) settles the pair to canceled (remark
    invalid) / succeeded and the attempt ends without error; a second attempt
    on the resulting store ends without error on the same pair. *)
Theorem handlePayTo_mismatch_cancels
    env provider txId w tx b rc recipient sender articleDb :
  faults w = [] ->
  baseFindById (db w) txId = Some tx ->
  tx_provider tx = blockchain ->
  findBlockchainTransactionById (db w) (tx_providerTxId tx) = Some b ->
  getTransactionReceipt provider (bc_txHash b) = Some rc ->
  status rc = 1 ->
  userBaseFindById (db w) (tx_recipientId tx) = Some recipient ->
  userBaseFindById (db w) (tx_senderId tx) = Some sender ->
  findFirstArticle (db w) (tx_targetId tx) = Some articleDb ->
  existsb (specLogMatches env (expectedOf env tx sender recipient articleDb))
          (logs rc) = false ->
  let w1 := after (handlePayTo env provider txId) w in
  let w2 := after (handlePayTo env provider txId) w1 in
  (outcome (handlePayTo env provider txId) w = Ok tt
   /\ ledgerState (db w1) txId = Some (canceled, Some INVALID)
   /\ chainState (db w1) (bc_id b) = Some bc_succeeded
   /\ discarded (job w1) = discarded (job w))
  /\
  (outcome (handlePayTo env provider txId) w1 = Ok tt
   /\ ledgerState (db w2) txId = Some (canceled, Some INVALID)
   /\ chainState (db w2) (bc_id b) = Some bc_succeeded
   /\ discarded (job w2) = discarded (job w)).
Proof.
  intros Hf Htx Hp Hb Hrc Hst Hr Hs Ha Hno.
  assert (Hst0 : Z.eqb (status rc) 0 = false) by (rewrite Hst; reflexivity).
  assert (Hm : containMatchedEvent env (logs rc)
                 (expectedOf env tx sender recipient articleDb) = false).
  { apply containMatchedEvent_no_match. intros log Hin.
    destruct (specLogMatches env _ log) eqn:E; [|reflexivity].
    assert (existsb (specLogMatches env
                       (expectedOf env tx sender recipient articleDb))
                    (logs rc) = true)
      by (apply existsb_exists; exists log; split; assumption).
    congruence. }
  assert (Hbid : find_by bc_id (bc_id b) (blockchain_transaction (db w)) = Some b).
  { unfold findBlockchainTransactionById in Hb.
    destruct (tx_providerTxId tx) as [i|]; [|discriminate].
    now rewrite (find_by_key _ _ _ _ Hb). }
  pose proof (handlePayTo_mismatch env provider txId w tx b rc recipient
                sender articleDb Hf Htx Hp Hb Hrc Hst0 Hr Hs Ha Hm) as Run1.
  intros w1 w2. unfold after, outcome in *.
  subst w2 w1. rewrite Run1. cbn [fst snd].
  set (d1 := apply_unit (pairUnit txId canceled (Some INVALID) (bc_id b)
                                  bc_succeeded) (db w)) in *.
  set (w1 := mkWorld d1 [] _ [] (job w) (calls w)) in *.
  split.
  { repeat split.
    - exact (ledgerState_pair _ _ _ _ _ _ _ Htx).
    - exact (chainState_pair _ _ _ _ _ _ _ Hbid). }
  (* the second attempt runs on the settled rows *)
  set (tx' := set_tx_state canceled (Some INVALID) tx).
  set (b' := set_bc_state bc_succeeded b).
  assert (Htx' : baseFindById (db w1) txId = Some tx').
  { unfold baseFindById in *. simpl.
    exact (find_by_update_same tx_id _ _ _ _ (set_tx_state_id _ _) Htx). }
  assert (Hb' : findBlockchainTransactionById (db w1) (tx_providerTxId tx')
                = Some b').
  { unfold findBlockchainTransactionById in *. simpl.
    destruct (tx_providerTxId tx) as [i|]; [|discriminate].
    pose proof (find_by_key _ _ _ _ Hb) as Hi. rewrite <- Hi.
    exact (find_by_update_same bc_id _ _ _ _ (set_bc_state_id _) Hbid). }
  pose proof (handlePayTo_mismatch env provider txId w1 tx' b' rc recipient
                sender articleDb eq_refl Htx' Hp Hb' Hrc Hst0 Hr Hs Ha Hm)
    as Run2.
  rewrite Run2. cbn [fst snd].
  repeat split.
  - exact (ledgerState_pair _ _ _ _ _ _ _ Htx').
  - assert (Hbid' : find_by bc_id (bc_id b') (blockchain_transaction (db w1))
                    = Some b').
    { simpl.
      exact (find_by_update_same bc_id _ _ _ _ (set_bc_state_id _) Hbid). }
    exact (chainState_pair _ _ _ _ _ _ _ Hbid').
Qed.

(** C7 at the sample store: Alice's donation of 10 USDT against a receipt
    whose only log carries 25 USDT. *)
Lemma handlePayTo_mismatch_cancels_witness :
  let m := handlePayTo Sample.env (Sample.chain 1000 25000000 []) 1%nat in
  let w := Sample.world Sample.store in
  (outcome m w = Ok tt
   /\ ledgerState (db (after m w)) 1%nat = Some (canceled, Some INVALID)
   /\ chainState (db (after m w)) 1%nat = Some bc_succeeded
   /\ discarded (job (after m w)) = false)
  /\
  (outcome m (after m w) = Ok tt
   /\ ledgerState (db (after m (after m w))) 1%nat
      = Some (canceled, Some INVALID)
   /\ chainState (db (after m (after m w))) 1%nat = Some bc_succeeded
   /\ discarded (job (after m (after m w))) = false).
Proof.
  exact (handlePayTo_mismatch_cancels Sample.env
           (Sample.chain 1000 25000000 []) 1%nat (Sample.world Sample.store)
           Sample.donation1 Sample.chainTx1
           (mkReceipt 1 [Sample.curationLog 25000000])
           Sample.bob Sample.alice Sample.essay
           eq_refl eq_refl eq_refl eq_refl eq_refl eq_refl eq_refl eq_refl
           eq_refl eq_refl).
Defined.

(** C10.  When the sender or the recipient has no stored wallet address the
    log-matching predicate is false on every list of logs, so a receipt
    mined with status 1 settles the pair to canceled (remark invalid) /
    succeeded: the attempt ends without error, is not retried and does not
    reach succeeded / succeeded. *)
Theorem handlePayTo_missing_wallet_cancels
    env provider txId w tx b rc recipient sender articleDb :
  faults w = [] ->
  baseFindById (db w) txId = Some tx ->
  tx_provider tx = blockchain ->
  findBlockchainTransactionById (db w) (tx_providerTxId tx) = Some b ->
  getTransactionReceipt provider (bc_txHash b) = Some rc ->
  status rc = 1 ->
  userBaseFindById (db w) (tx_recipientId tx) = Some recipient ->
  userBaseFindById (db w) (tx_senderId tx) = Some sender ->
  findFirstArticle (db w) (tx_targetId tx) = Some articleDb ->
  u_ethAddress sender = None \/ u_ethAddress recipient = None ->
  let m := handlePayTo env provider txId in
  (forall logs,
     containMatchedEvent env logs (expectedOf env tx sender recipient articleDb)
     = false)
  /\ outcome m w = Ok tt
  /\ retryable m w = false
  /\ ledgerState (db (after m w)) txId = Some (canceled, Some INVALID)
  /\ chainState (db (after m w)) (bc_id b) = Some bc_succeeded.
Proof.
  intros Hf Htx Hp Hb Hrc Hst Hr Hs Ha Hnone m.
  assert (Hall : forall logs,
             containMatchedEvent env logs
               (expectedOf env tx sender recipient articleDb) = false).
  { intros logs. apply containMatchedEvent_no_address. exact Hnone. }
  assert (Hst0 : Z.eqb (status rc) 0 = false) by (rewrite Hst; reflexivity).
  assert (Hbid : find_by bc_id (bc_id b) (blockchain_transaction (db w)) = Some b).
  { unfold findBlockchainTransactionById in Hb.
    destruct (tx_providerTxId tx) as [i|]; [|discriminate].
    now rewrite (find_by_key _ _ _ _ Hb). }
  pose proof (handlePayTo_mismatch env provider txId w tx b rc recipient
                sender articleDb Hf Htx Hp Hb Hrc Hst0 Hr Hs Ha
                (Hall (logs rc))) as Run.
  unfold retryable, after, outcome. subst m. rewrite Run. cbn [fst snd].
  split; [exact Hall|]. split; [reflexivity|]. split; [reflexivity|]. split.
  - exact (ledgerState_pair _ _ _ _ _ _ _ Htx).
  - exact (chainState_pair _ _ _ _ _ _ _ Hbid).
Qed.

(** C10 at the sample store: the donation to Carol, who has no wallet,
    against a receipt whose log would otherwise carry the right amount. *)
Lemma handlePayTo_missing_wallet_cancels_witness :
  let m := handlePayTo Sample.env (Sample.chain 1000 10000000 []) 2%nat in
  let w := Sample.world Sample.store in
  (forall logs,
     containMatchedEvent Sample.env logs
       (expectedOf Sample.env Sample.donation2 Sample.alice Sample.carol
                   Sample.note) = false)
  /\ outcome m w = Ok tt
  /\ retryable m w = false
  /\ ledgerState (db (after m w)) 2%nat = Some (canceled, Some INVALID)
  /\ chainState (db (after m w)) 2%nat = Some bc_succeeded.
Proof.
  exact (handlePayTo_missing_wallet_cancels Sample.env
           (Sample.chain 1000 10000000 []) 2%nat (Sample.world Sample.store)
           Sample.donation2 Sample.chainTx2
           (mkReceipt 1 [Sample.curationLog 10000000])
           Sample.carol Sample.alice Sample.note
           eq_refl eq_refl eq_refl eq_refl eq_refl eq_refl eq_refl eq_refl
           eq_refl (or_intror eq_refl)).
Defined.

(** With a receipt at hand, a well-formed pay-to job ends without error and
    is not discarded, whichever way it settles the pair. *)
Lemma handlePayTo_with_receipt env provider txId w tx b rc :
  faults w = [] ->
  payToEntitiesExist (db w) txId = true ->
  baseFindById (db w) txId = Some tx ->
  provider_eqb (tx_provider tx) blockchain = true ->
  findBlockchainTransactionById (db w) (tx_providerTxId tx) = Some b ->
  getTransactionReceipt provider (bc_txHash b) = Some rc ->
  outcome (handlePayTo env provider txId) w = Ok tt
  /\ discarded (job (after (handlePayTo env provider txId) w))
     = discarded (job w).
Proof.
  intros Hf He Htx Hp Hb Hrc.
  unfold payToEntitiesExist in He. rewrite Htx in He.
  unfold outcome, after, handlePayTo, bind, getDb.
  rewrite Htx, Hp. cbn [negb]. rewrite Hb, Hrc.
  destruct (Z.eqb (status rc) 0).
  { run_pair Hf. split; reflexivity. }
  destruct (userBaseFindById (db w) (tx_recipientId tx)) as [recipient|];
    [|discriminate].
  destruct (userBaseFindById (db w) (tx_senderId tx)) as [sender|];
    [|discriminate].
  destruct (findFirstArticle (db w) (tx_targetId tx)) as [articleDb|];
    [|discriminate].
  destruct (containMatchedEvent env (logs rc) _); cbn [negb].
  - run_pair Hf. cbn [db apply_unit pairUnit fold_left apply_write user
                      with_transaction with_blockchain_transaction].
    destruct (find_by u_id (a_authorId articleDb) (user (db w)));
      [|discriminate].
    split; reflexivity.
  - rewrite (updateTxAndBlockchainTxState_run _ _ _ _ _ _ Hf).
    split; reflexivity.
Qed.

(** C6.  With the loaded entities in place and a store that does not fail, a
    pay-to attempt ends in a retryable error (it throws, the job is not
    discarded) exactly when the job data is well formed and the receipt of
    its blockchain transaction is absent; when the ledger row is missing,
    its provider is not blockchain or its blockchain transaction is missing,
    the job is discarded and an error is thrown; with a receipt present
    (status 0, mismatch or match) the attempt ends without error and the job
    is not discarded. *)
Theorem handlePayTo_retry_policy env provider txId w :
  faults w = [] ->
  discarded (job w) = false ->
  payToEntitiesExist (db w) txId = true ->
  let m := handlePayTo env provider txId in
  (retryable m w = true <->
   exists tx b, wellFormedJob (db w) txId = Some (tx, b)
                /\ getTransactionReceipt provider (bc_txHash b) = None)
  /\ (wellFormedJob (db w) txId = None -> discardedWithError m w = true)
  /\ (forall tx b rc,
        wellFormedJob (db w) txId = Some (tx, b) ->
        getTransactionReceipt provider (bc_txHash b) = Some rc ->
        outcome m w = Ok tt /\ discarded (job (after m w)) = false).
Proof.
  intros Hf Hd He m. subst m.
  unfold wellFormedJob, retryable, discardedWithError.
  destruct (baseFindById (db w) txId) as [tx|] eqn:Htx.
  2:{ unfold after, outcome, handlePayTo, bind, getDb. rewrite Htx.
      cbn. split; [split; [discriminate | intros (? & ? & ? & _); discriminate]|].
      split; [reflexivity | discriminate]. }
  destruct (provider_eqb (tx_provider tx) blockchain) eqn:Hp.
  2:{ unfold after, outcome, handlePayTo, bind, getDb. rewrite Htx, Hp.
      cbn. split; [split; [discriminate | intros (? & ? & ? & _); discriminate]|].
      split; [reflexivity | discriminate]. }
  destruct (findBlockchainTransactionById (db w) (tx_providerTxId tx))
    as [b|] eqn:Hb.
  2:{ unfold after, outcome, handlePayTo, bind, getDb. rewrite Htx, Hp.
      cbn [negb]. rewrite Hb.
      cbn. split; [split; [discriminate | intros (? & ? & ? & _); discriminate]|].
      split; [reflexivity | discriminate]. }
  destruct (getTransactionReceipt provider (bc_txHash b)) as [rc|] eqn:Hrc.
  - destruct (handlePayTo_with_receipt env provider txId w tx b rc
                Hf He Htx Hp Hb Hrc) as [Hok Hnd].
    rewrite Hok, Hnd, Hd. cbn.
    split; [split; [discriminate | intros (? & ? & E & ?)]|].
    + injection E as <- <-. congruence.
    + split; [discriminate|]. intros; split; reflexivity.
  - split.
    + unfold after, outcome, handlePayTo, bind, getDb. rewrite Htx, Hp.
      cbn [negb]. rewrite Hb, Hrc. cbn. rewrite Hd.
      split; [intros _; exists tx, b; split; [reflexivity | exact Hrc]
             | reflexivity].
    + split; [discriminate|].
      intros tx0 b0 rc0 E. injection E as <- <-. congruence.
Qed.

(** C6 at the sample store, on a chain where the receipt of Alice's
    donation carries the right transfer. *)
Lemma handlePayTo_retry_policy_witness :
  let m := handlePayTo Sample.env (Sample.chain 1000 10000000 []) 1%nat in
  let w := Sample.world Sample.store in
  (retryable m w = true <->
   exists tx b, wellFormedJob (db w) 1%nat = Some (tx, b)
                /\ getTransactionReceipt (Sample.chain 1000 10000000 [])
                     (bc_txHash b) = None)
  /\ (wellFormedJob (db w) 1%nat = None -> discardedWithError m w = true)
  /\ (forall tx b rc,
        wellFormedJob (db w) 1%nat = Some (tx, b) ->
        getTransactionReceipt (Sample.chain 1000 10000000 []) (bc_txHash b)
        = Some rc ->
        outcome m w = Ok tt /\ discarded (job (after m w)) = false).
Proof.
  exact (handlePayTo_retry_policy Sample.env (Sample.chain 1000 10000000 [])
           1%nat (Sample.world Sample.store) eq_refl eq_refl eq_refl).
Defined.

(** ** The event synchronizer: reorg handling *)

Lemma findOrCreateBlockchainTransaction_found env txHash state w b :
  findBlockchainTransactionByHash (db w) txHash = Some b ->
  findOrCreateBlockchainTransaction env txHash state w = (w, Ok b).
Proof.
  intros H. unfold findOrCreateBlockchainTransaction, bind, getDb.
  now rewrite H.
Qed.

Lemma findOrCreateBlockchainTransaction_created env txHash state w :
  faults w = [] ->
  findBlockchainTransactionByHash (db w) txHash = None ->
  findOrCreateBlockchainTransaction env txHash state w
  = (let row := lazyBlockchainTransaction env (db w) txHash state in
     (mkWorld (apply_write (InsertBlockchainTransaction row) (db w)) []
              (committed w ++ [[InsertBlockchainTransaction row]]) []
              (job w) (calls w), Ok row)).
Proof.
  intros Hf H.
  unfold findOrCreateBlockchainTransaction, bind, getDb, exec,
    knex_transaction, write, ret.
  rewrite H. cbn. rewrite Hf. reflexivity.
Qed.

Lemma resolveReorg_run provider b tid ev w tx :
  faults w = [] ->
  baseFindById (db w) tid = Some tx ->
  resolveReorg provider b tid ev w
  = match reorgResolution (tx_state tx)
            (getTransactionReceipt provider (transactionHash ev)) with
    | Some (s, bs) =>
        (mkWorld (apply_unit (pairUnit tid s None (bc_id b) bs) (db w)) []
                 (committed w ++ [pairUnit tid s None (bc_id b) bs]) []
                 (job w) (calls w), Ok tt)
    | None => (w, Ok tt)
    end.
Proof.
  intros Hf Htx. unfold resolveReorg, bind, getDb. rewrite Htx.
  unfold reorgResolution.
  destruct (tx_state tx); cbn [tx_state_eqb];
    destruct (getTransactionReceipt provider (transactionHash ev)) as [r|];
    unfold ret; try reflexivity.
  - destruct (Z.eqb (status r) 0); [|reflexivity].
    run_pair Hf. reflexivity.
  - run_pair Hf. reflexivity.
  - destruct (Z.eqb (status r) 1); [|reflexivity].
    run_pair Hf. reflexivity.
Qed.

(** C1 (amended).  For a removal event processed by the synchronizer on a
    store that does not fail: when no BlockchainTransaction exists for the
    retracted hash, find-or-create inserts an unlinked one and nothing else
    changes; when it exists without a linked LedgerTransaction nothing
    changes; otherwise the pair moves as the reorg-resolution table says
    (succeeded and no receipt: pending / pending; succeeded and receipt
    status 0: failed / reverted; failed and receipt status 1: succeeded /
    succeeded) and in every other combination nothing changes. *)
Theorem syncCurationEvent_removal env provider ev w :
  faults w = [] ->
  removed ev = true ->
  let m := syncCurationEvent env provider ev in
  match findBlockchainTransactionByHash (db w) (transactionHash ev) with
  | None =>
      outcome m w = Ok []
      /\ db (after m w)
         = apply_write
             (InsertBlockchainTransaction
                (lazyBlockchainTransaction env (db w) (transactionHash ev) None))
             (db w)
      /\ transaction (db (after m w)) = transaction (db w)
      /\ (forall i row,
            find_by bc_id i (blockchain_transaction (db w)) = Some row ->
            find_by bc_id i (blockchain_transaction (db (after m w)))
            = Some row)
  | Some b =>
      match bc_transactionId b with
      | None => outcome m w = Ok [] /\ after m w = w
      | Some tid =>
          forall tx, baseFindById (db w) tid = Some tx ->
          outcome m w = Ok []
          /\ match reorgResolution (tx_state tx)
                     (getTransactionReceipt provider (transactionHash ev)) with
             | Some (s, bs) =>
                 db (after m w)
                 = apply_unit (pairUnit tid s None (bc_id b) bs) (db w)
                 /\ ledgerState (db (after m w)) tid = Some (s, tx_remark tx)
                 /\ chainState (db (after m w)) (bc_id b) = Some bs
             | None => after m w = w
             end
      end
  end.
Proof.
  intros Hf Hrem m. subst m. unfold after, outcome.
  destruct (findBlockchainTransactionByHash (db w) (transactionHash ev))
    as [b|] eqn:Hfind.
  - destruct (bc_transactionId b) as [tid|] eqn:Hlink.
    + intros tx Htx.
      assert (Run : syncCurationEvent env provider ev w
                    = match reorgResolution (tx_state tx)
                              (getTransactionReceipt provider
                                 (transactionHash ev)) with
                      | Some (s, bs) =>
                          (mkWorld
                             (apply_unit (pairUnit tid s None (bc_id b) bs)
                                         (db w)) []
                             (committed w
                              ++ [pairUnit tid s None (bc_id b) bs]) []
                             (job w) (calls w), Ok [])
                      | None => (w, Ok [])
                      end).
      { unfold syncCurationEvent, bind. rewrite Hrem. cbn [negb].
        rewrite (findOrCreateBlockchainTransaction_found env _ None w b Hfind).
        rewrite Hlink.
        rewrite (resolveReorg_run provider b tid ev w tx Hf Htx).
        destruct (reorgResolution (tx_state tx) _) as [[s bs]|]; reflexivity. }
      rewrite Run.
      destruct (find_by_In bc_id b (blockchain_transaction (db w)))
        as [b0 Hbid].
      { unfold findBlockchainTransactionByHash in Hfind.
        apply find_some in Hfind. tauto. }
      destruct (reorgResolution (tx_state tx) _) as [[s bs]|];
        cbn [fst snd db]; [|split; reflexivity].
      split; [reflexivity|]. split; [reflexivity|]. split.
      * exact (ledgerState_pair _ _ _ _ _ _ _ Htx).
      * exact (chainState_pair _ _ _ _ _ _ _ Hbid).
    + assert (Run : syncCurationEvent env provider ev w = (w, Ok [])).
      { unfold syncCurationEvent, bind. rewrite Hrem. cbn [negb].
        rewrite (findOrCreateBlockchainTransaction_found env _ None w b Hfind).
        now rewrite Hlink. }
      rewrite Run. split; reflexivity.
  - assert (Run : syncCurationEvent env provider ev w
                  = (let row := lazyBlockchainTransaction env (db w)
                                  (transactionHash ev) None in
                     (mkWorld (apply_write (InsertBlockchainTransaction row)
                                           (db w)) []
                              (committed w ++ [[InsertBlockchainTransaction row]])
                              [] (job w) (calls w), Ok []))).
    { unfold syncCurationEvent, bind. rewrite Hrem. cbn [negb].
      now rewrite (findOrCreateBlockchainTransaction_created env _ None w
                     Hf Hfind). }
    rewrite Run. cbv zeta.
    cbn [fst snd db apply_write with_blockchain_transaction
         blockchain_transaction transaction].
    split; [reflexivity|]. split; [reflexivity|]. split; [reflexivity|].
    intros i row H. rewrite find_by_snoc, H. reflexivity.
Qed.

(** C1 at the sample store: Alice's settled donation is retracted and the
    chain no longer reports a receipt for it. *)
Lemma syncCurationEvent_removal_witness :
  let m := syncCurationEvent Sample.env (Sample.unminedChain 1000 [])
             (Sample.retracted 900 "0xh1") in
  let w := Sample.world Sample.settled in
  outcome m w = Ok []
  /\ ledgerState (db (after m w)) 1%nat = Some (pending, None)
  /\ chainState (db (after m w)) 1%nat = Some bc_pending.
Proof.
  pose proof (syncCurationEvent_removal Sample.env
                (Sample.unminedChain 1000 []) (Sample.retracted 900 "0xh1")
                (Sample.world Sample.settled) eq_refl eq_refl) as H.
  cbv zeta in H.
  change (findBlockchainTransactionByHash _ _)
    with (Some (set_bc_state bc_succeeded Sample.chainTx1)) in H.
  cbv beta iota in H.
  change (bc_transactionId (set_bc_state bc_succeeded Sample.chainTx1))
    with (Some 1%nat) in H.
  cbv beta iota in H.
  destruct (H (set_tx_state succeeded None Sample.donation1) eq_refl)
    as [H1 H2].
  change (reorgResolution _ _) with (Some (pending, bc_pending)) in H2.
  cbv beta iota in H2.
  destruct H2 as (_ & H2 & H3).
  split; [exact H1|]. split; [exact H2 | exact H3].
Defined.

(** C1, as stated, fails when the retracted hash has no BlockchainTransaction
    yet: find-or-create inserts one, so the store does change. *)
Lemma syncCurationEvent_removal_unseen_hash_changes_store :
  let m := syncCurationEvent Sample.env (Sample.unminedChain 1000 [])
             (Sample.retracted 900 "0xdead") in
  let w := Sample.world Sample.store in
  findBlockchainTransactionByHash (db w) "0xdead" = None
  /\ blockchain_transaction (db (after m w))
     = blockchain_transaction (db w)
       ++ [mkBlockchainTransaction 3 "0xdead" bc_pending None]
  /\ db (after m w) <> db w.
Proof.
  split; [reflexivity|]. split; [reflexivity|].
  intros H.
  apply (f_equal (fun d => length (blockchain_transaction d))) in H.
  vm_compute in H. discriminate H.
Qed.

(** ** The event synchronizer: superseding a stale ledger row *)






(** ** Frames *)

Section Respects.

Context (R : World -> World -> Prop) `{PreOrder World R}.

Lemma respects_ret {A} (a : A) : respects R (ret a).
Proof. intros w. unfold after, ret. cbn. reflexivity. Qed.

Lemma respects_throw {A} e : respects R (@throw A e).
Proof. intros w. unfold after, throw. cbn. reflexivity. Qed.

Lemma respects_getDb : respects R getDb.
Proof. intros w. unfold after, getDb. cbn. reflexivity. Qed.

Lemma respects_bind {A B} (m : M A) (k : A -> M B) :
  respects R m -> (forall a, respects R (k a)) -> respects R (bind m k).
Proof.
  intros Hm Hk w. unfold after, bind.
  specialize (Hm w). unfold after in Hm.
  destruct (m w) as [w1 [a|e]]; cbn [fst] in *.
  - etransitivity; [exact Hm | apply Hk].
  - exact Hm.
Qed.

End Respects.

#[local] Instance loopFrame_preorder : PreOrder loopFrame.
Proof.
  split.
  - intros w. unfold loopFrame. tauto.
  - intros a b c (H1 & H2 & H3 & H4) (K1 & K2 & K3 & K4).
    unfold loopFrame. repeat split; try congruence. tauto.
Qed.

#[local] Instance helperGrowth_preorder : PreOrder helperGrowth.
Proof.
  split.
  - intros w. exists []. now rewrite app_nil_r.
  - intros a b c (us & H1 & H2) (vs & K1 & K2).
    exists (us ++ vs). rewrite K1, H1, app_assoc. split; [reflexivity|].
    now rewrite forallb_app, H2, K2.
Qed.

Lemma loopFrame_write wr : reconciling wr = true -> respects loopFrame (write wr).
Proof.
  intros Hw w. unfold after, write, loopFrame.
  destruct (faults w) as [|[] fs]; cbn;
    destruct wr; try discriminate Hw; cbn; repeat split; intros; discriminate.
Qed.

Lemma loopFrame_knex_transaction {A} (body : M A) :
  respects loopFrame body -> respects loopFrame (knex_transaction body).
Proof.
  intros Hb w. unfold after, knex_transaction.
  specialize (Hb (mkWorld (db w) (faults w) (committed w) [] (job w) (calls w))).
  unfold after in Hb.
  destruct (body _) as [w' [a|e]]; cbn in *;
    destruct Hb as (H1 & H2 & H3 & H4); repeat split; assumption.
Qed.

Lemma loopFrame_exec trx wr :
  reconciling wr = true -> respects loopFrame (exec trx wr).
Proof.
  intros Hw. unfold exec. destruct trx.
  - now apply loopFrame_write.
  - apply loopFrame_knex_transaction. now apply loopFrame_write.
Qed.

(** Steps through a handler one construct at a time. *)
Ltac frame_step lem :=
  first
    [ apply respects_ret; typeclasses eauto
    | apply respects_throw; typeclasses eauto
    | apply respects_getDb; typeclasses eauto
    | apply lem; reflexivity
    | apply respects_bind; [typeclasses eauto | | intros ?]
    | match goal with
      | |- respects _ (match ?x with _ => _ end) => destruct x
      | |- respects _ (let _ := _ in _) => cbv zeta
      end ].

Lemma loopFrame_updateTxAndBlockchainTxState txId s r bid bs :
  respects loopFrame (updateTxAndBlockchainTxState txId s r bid bs).
Proof.
  unfold updateTxAndBlockchainTxState, markTransactionStateAs,
    markBlockchainTransactionStateAs.
  apply loopFrame_knex_transaction. repeat frame_step loopFrame_exec.
Qed.

Lemma loopFrame_syncCurationEvent env provider ev :
  respects loopFrame (syncCurationEvent env provider ev).
Proof.
  unfold syncCurationEvent, findOrCreateBlockchainTransaction,
    reconcileDonation, resolveReorg, cancelAndReplace, createAndLink,
    failBothTxAndBlockchainTx, succeedBothTxAndBlockchainTx,
    resetBothTxAndBlockchainTx, markTransactionStateAs, createTransaction,
    baseUpdate_transactionId.
  repeat first [ apply loopFrame_updateTxAndBlockchainTxState
               | frame_step loopFrame_exec
               | apply loopFrame_knex_transaction ].
Qed.

Lemma loopFrame_syncLoop env provider events acc :
  respects loopFrame (syncLoop env provider events acc).
Proof.
  revert acc. induction events as [|ev events IH]; intros acc; cbn [syncLoop].
  - apply respects_ret; typeclasses eauto.
  - apply respects_bind;
      [typeclasses eauto | apply loopFrame_syncCurationEvent
       | intros; apply IH].
Qed.

(** ** The event synchronizer: mirroring *)

Lemma findOrCreateBlockchainTransaction_hash env txHash state w w' b :
  findOrCreateBlockchainTransaction env txHash state w = (w', Ok b) ->
  bc_txHash b = txHash.
Proof.
  unfold findOrCreateBlockchainTransaction, bind, getDb.
  destruct (findBlockchainTransactionByHash (db w) txHash) as [b0|] eqn:E.
  - unfold ret. intros H. injection H as _ <-.
    unfold findBlockchainTransactionByHash in E. apply find_some in E.
    now apply String.eqb_eq.
  - destruct (exec false _ w) as [w1 [[]|e]]; unfold ret; intros H;
      [|discriminate].
    injection H as _ <-. reflexivity.
Qed.

(** One turn of the loop pushes the row of the event when it is an added
    event and nothing when it is a removal. *)
Lemma syncCurationEvent_pushed env provider ev w w' rows :
  syncCurationEvent env provider ev w = (w', Ok rows) ->
  Forall2 (mirrors env) rows (addedEvents [ev]).
Proof.
  unfold syncCurationEvent, addedEvents. cbn [filter].
  destruct (removed ev); cbn [negb]; unfold bind at 1;
    destruct (findOrCreateBlockchainTransaction env _ _ w) as [w1 [b|e]] eqn:E;
    try discriminate.
  - destruct (bc_transactionId b).
    + unfold bind.
      destruct (resolveReorg provider b i ev w1) as [w2 [[]|e]];
        unfold ret; intros H; [|discriminate].
      injection H as _ <-. constructor.
    + unfold ret. intros H. injection H as _ <-. constructor.
  - unfold bind.
    destruct (reconcileDonation env ev b _ w1) as [w2 [[]|e]];
      unfold ret; intros H; [|discriminate].
    injection H as _ <-. constructor; [|constructor].
    exists b. split; [|reflexivity].
    eapply findOrCreateBlockchainTransaction_hash; exact E.
Qed.

Lemma addedEvents_cons ev events :
  addedEvents (ev :: events) = addedEvents [ev] ++ addedEvents events.
Proof. unfold addedEvents. cbn. destruct (removed ev); reflexivity. Qed.

Lemma syncLoop_pushed env provider events acc w w' rows :
  syncLoop env provider events acc w = (w', Ok rows) ->
  exists new, rows = acc ++ new
              /\ Forall2 (mirrors env) new (addedEvents events).
Proof.
  revert acc w. induction events as [|ev events IH]; intros acc w;
    cbn [syncLoop].
  - unfold ret. intros H. injection H as _ <-.
    exists []. split; [now rewrite app_nil_r | constructor].
  - unfold bind.
    destruct (syncCurationEvent env provider ev w) as [w1 [pushed|e]] eqn:E;
      [|discriminate].
    intros H. apply IH in H. destruct H as (new & -> & Hnew).
    exists (pushed ++ new). split; [now rewrite app_assoc|].
    rewrite addedEvents_cons. apply Forall2_app; [|exact Hnew].
    eapply syncCurationEvent_pushed; exact E.
Qed.



(** A run is the pair of the world it leaves and what it returned. *)
Lemma run_pairing {A} (m : M A) (w : World) (r : result A) :
  outcome m w = r -> m w = (after m w, r).
Proof.
  unfold outcome, after. destruct (m w) as [w' r']. cbn. now intros ->.
Qed.



(** ** The shared helper as the writer of terminal ledger states *)

Lemma helperGrowth_same w w' : committed w' = committed w -> helperGrowth w w'.
Proof. intros E. exists []. now rewrite app_nil_r. Qed.

Lemma helperGrowth_unit w w' u :
  committed w' = committed w ++ [u] -> throughHelper u = true ->
  helperGrowth w w'.
Proof. intros E Hu. exists [u]. split; [exact E|]. cbn. now rewrite Hu. Qed.

Lemma helperGrowth_job_discard : respects helperGrowth job_discard.
Proof. intros w. now apply helperGrowth_same. Qed.

Lemma helperGrowth_job_progress n : respects helperGrowth (job_progress n).
Proof. intros w. now apply helperGrowth_same. Qed.

Lemma helperGrowth_call c : respects helperGrowth (call c).
Proof. intros w. now apply helperGrowth_same. Qed.

Lemma helperGrowth_updateTxAndBlockchainTxState txId s r bid bs :
  respects helperGrowth (updateTxAndBlockchainTxState txId s r bid bs).
Proof.
  intros w.
  unfold after, updateTxAndBlockchainTxState, knex_transaction,
    markTransactionStateAs, markBlockchainTransactionStateAs, exec, bind, write.
  cbn [faults db committed open_unit job calls].
  destruct (faults w) as [|[] [|[] fs]]; cbn;
    first [ now apply helperGrowth_same
          | eapply helperGrowth_unit; [reflexivity|];
            unfold throughHelper; cbn; now rewrite implb_true_r ].
Qed.

Lemma helperGrowth_findOrCreateBlockchainTransaction env txHash state :
  respects helperGrowth (findOrCreateBlockchainTransaction env txHash state).
Proof.
  intros w.
  unfold after, findOrCreateBlockchainTransaction, bind, getDb, exec,
    knex_transaction, write, ret.
  destruct (findBlockchainTransactionByHash (db w) txHash); cbn;
    [now apply helperGrowth_same|].
  destruct (faults w) as [|[] fs]; cbn;
    first [ now apply helperGrowth_same
          | eapply helperGrowth_unit; reflexivity ].
Qed.

Lemma helperGrowth_baseBatchCreate rows :
  respects helperGrowth (knex_transaction (baseBatchCreate rows true)).
Proof.
  intros w. unfold after, baseBatchCreate, exec, knex_transaction, write.
  cbn [faults db committed open_unit job calls].
  destruct (faults w) as [|[] fs]; cbn;
    first [ now apply helperGrowth_same
          | eapply helperGrowth_unit; reflexivity ].
Qed.

Ltac growth_step :=
  first
    [ apply respects_ret; typeclasses eauto
    | apply respects_throw; typeclasses eauto
    | apply respects_getDb; typeclasses eauto
    | apply helperGrowth_updateTxAndBlockchainTxState
    | apply helperGrowth_findOrCreateBlockchainTransaction
    | apply helperGrowth_baseBatchCreate
    | apply helperGrowth_job_discard
    | apply helperGrowth_job_progress
    | apply helperGrowth_call
    | apply respects_bind; [typeclasses eauto | | intros ?]
    | match goal with
      | |- respects _ (match ?x with _ => _ end) => destruct x
      | |- respects _ (let _ := _ in _) => cbv zeta
      end ].

Lemma helperGrowth_handlePayTo env provider txId :
  respects helperGrowth (handlePayTo env provider txId).
Proof.
  unfold handlePayTo, failBothTxAndBlockchainTx, succeedBothTxAndBlockchainTx.
  repeat growth_step.
Qed.

Lemma helperGrowth_removal env provider ev :
  removed ev = true ->
  respects helperGrowth (syncCurationEvent env provider ev).
Proof.
  intros Hrem. unfold syncCurationEvent. rewrite Hrem. cbn [negb].
  unfold resolveReorg, failBothTxAndBlockchainTx,
    succeedBothTxAndBlockchainTx, resetBothTxAndBlockchainTx.
  repeat growth_step.
Qed.

Lemma helperGrowth_removals env provider events acc :
  forallb removed events = true ->
  respects helperGrowth (syncLoop env provider events acc).
Proof.
  revert acc. induction events as [|ev events IH]; intros acc Hall;
    cbn [syncLoop].
  - apply respects_ret; typeclasses eauto.
  - cbn [forallb] in Hall. apply andb_prop in Hall. destruct Hall as [H1 H2].
    apply respects_bind; [typeclasses eauto | now apply helperGrowth_removal|].
    intros pushed. now apply IH.
Qed.

(** C2 (amended).  Every unit the pay-to verifier commits, and every unit the
    synchronizer commits while handling removal events, goes through the
    shared helper: a unit that marks a ledger row succeeded, failed or
    canceled is one of the helper's units, which write the state of the
    BlockchainTransaction in the same transaction. *)
Theorem terminal_states_through_helper env provider :
  (forall txId w,
     forallb throughHelper (committed w) = true ->
     forallb throughHelper
       (committed (after (handlePayTo env provider txId) w)) = true)
  /\ (forall events w,
        forallb removed events = true ->
        forallb throughHelper (committed w) = true ->
        forallb throughHelper
          (committed (after (syncCurationEvents env provider events) w))
        = true).
Proof.
  split.
  - intros txId w Hw.
    destruct (helperGrowth_handlePayTo env provider txId w) as (us & E & Hus).
    now rewrite E, forallb_app, Hw, Hus.
  - intros events w Hall Hw.
    assert (Hsync : respects helperGrowth
                      (syncCurationEvents env provider events)).
    { unfold syncCurationEvents.
      apply respects_bind;
        [typeclasses eauto | now apply helperGrowth_removals|].
      intros rows. repeat growth_step. }
    destruct (Hsync w) as (us & E & Hus).
    now rewrite E, forallb_app, Hw, Hus.
Qed.

(** C2 at the sample store: the pay-to job of Alice's donation, and the
    retraction of her settled donation. *)
Lemma terminal_states_through_helper_witness :
  forallb throughHelper
    (committed (after (handlePayTo Sample.env (Sample.chain 1000 10000000 [])
                         1%nat)
                      (Sample.world Sample.store))) = true
  /\ forallb throughHelper
       (committed (after (syncCurationEvents Sample.env
                            (Sample.unminedChain 1000 [])
                            [Sample.retracted 900 "0xh1"])
                         (Sample.world Sample.settled))) = true.
Proof.
  destruct (terminal_states_through_helper Sample.env
              (Sample.chain 1000 10000000 [])) as [Hpay _].
  destruct (terminal_states_through_helper Sample.env
              (Sample.unminedChain 1000 [])) as [_ Hsync].
  split.
  - exact (Hpay 1%nat (Sample.world Sample.store) eq_refl).
  - exact (Hsync [Sample.retracted 900 "0xh1"] (Sample.world Sample.settled)
             eq_refl eq_refl).
Defined.

(** C2, as stated, fails on the addition path of the synchronizer: an added
    event that matches the linked pending ledger row marks that row
    succeeded in a unit of its own, and the BlockchainTransaction stays
    pending. *)
Lemma syncCurationEvents_match_marks_ledger_alone :
  let m := syncCurationEvents Sample.env (Sample.chain 1000 10000000 [])
             [Sample.added 900 "0xh1" 10000000] in
  let w := Sample.world Sample.store in
  outcome m w = Ok 1%nat
  /\ hd [] (committed (after m w)) = [MarkTransactionState 1 succeeded None]
  /\ ledgerState (db w) 1%nat = Some (pending, None)
  /\ ledgerState (db (after m w)) 1%nat = Some (succeeded, None)
  /\ chainState (db (after m w)) 1%nat = Some bc_pending
  /\ forallb throughHelper (committed (after m w)) = false.
Proof.
  repeat split; reflexivity.
Qed.

(** ** The sync cursor *)

#[local] Instance cursorFrame_preorder : PreOrder cursorFrame.
Proof.
  split.
  - intros w. unfold cursorFrame. tauto.
  - intros a b c (H1 & H2 & H3) (K1 & K2 & K3).
    unfold cursorFrame. repeat split; try congruence. tauto.
Qed.

Lemma cursorFrame_syncCurationEvents env provider events :
  respects cursorFrame (syncCurationEvents env provider events).
Proof.
  unfold syncCurationEvents.
  apply respects_bind; [typeclasses eauto | |intros rows].
  - intros w. destruct (loopFrame_syncLoop env provider events [] w)
      as (_ & H2 & H3 & H4).
    repeat split; assumption.
  - apply respects_bind;
      [typeclasses eauto | | intros; apply respects_ret; typeclasses eauto].
    destruct (Z.geb _ 0); [|apply respects_ret; typeclasses eauto].
    intros w. unfold after, baseBatchCreate, exec, knex_transaction, write,
                cursorFrame.
    cbn [faults db committed open_unit job calls].
    destruct (faults w) as [|[] fs]; cbn; repeat split; intros; discriminate.
Qed.

Lemma call_run c w :
  call c w = (mkWorld (db w) (faults w) (committed w) (open_unit w) (job w)
                      (calls w ++ [c]), Ok tt).
Proof. reflexivity. Qed.

(** The last statement of a run: the cursor is written or, when the store
    fails, left as it was. *)
Lemma baseUpdateOrCreate_syncRecord_cases n w :
  let w' := after (baseUpdateOrCreate_syncRecord n) w in
  calls w' = calls w
  /\ (cursor w' = cursor w \/ cursor w' = Some n)
  /\ (faults w = [] ->
      outcome (baseUpdateOrCreate_syncRecord n) w = Ok tt
      /\ db w' = with_sync_record (Some n) (db w)).
Proof.
  unfold after, outcome, cursor, baseUpdateOrCreate_syncRecord, exec,
    knex_transaction, write.
  cbn [faults db committed open_unit job calls].
  destruct (faults w) as [|[] fs]; cbn; repeat split; auto; discriminate.
Qed.

(** What a sync run asks of the chain and what its cursor can become. *)
Lemma handleSyncCurationEvents_cases env provider w :
  let safe := safeHeight env provider in
  let w' := after (_handleSyncCurationEvents env provider) w in
  exists range,
    calls w' = calls w ++ [QueryFilter range]
    /\ range = match cursor w with
               | Some c =>
                   if Z.eqb (c + 1) 0 then None
                   else Some (c + 1, Z.min safe (c + 1 + 1999))
               | None => None
               end
    /\ (cursor w' = cursor w
        \/ exists t,
             cursor w' = Some t
             /\ match range with
                | Some (_, toBlock) => t = toBlock
                | None =>
                    t = safe
                    \/ exists e, In e (queryFilter provider None)
                                 /\ blockNumber e <= safe
                                 /\ t = blockNumber e
                end).
Proof.
  intros safe w'. subst w'. unfold after, cursor.
  destruct (_handleSyncCurationEvents env provider w) as [w' r] eqn:Run.
  cbn [fst].
  unfold _handleSyncCurationEvents in Run.
  fold (safeHeight env provider) in Run. fold safe in Run.
  unfold bind, getDb in Run.
  set (range := match blockchain_sync_record (db w) with
                | Some c =>
                    if Z.eqb (c + 1) 0 then None
                    else Some (c + 1, Z.min safe (c + 1 + 1999))
                | None => None
                end).
  exists range.
  assert (Hfalsy : falsy (option_map (fun n => n + 1)
                            (blockchain_sync_record (db w)))
                   = match range with None => true | Some _ => false end).
  { unfold range. destruct (blockchain_sync_record (db w)) as [c|]; cbn;
      [|reflexivity]. destruct (Z.eqb (c + 1) 0); reflexivity. }
  rewrite Hfalsy in Run.
  assert (Hwrite : forall t w1,
             calls w1 = calls w ++ [QueryFilter range] ->
             blockchain_sync_record (db w1) = blockchain_sync_record (db w) ->
             baseUpdateOrCreate_syncRecord t w1 = (w', r) ->
             calls w' = calls w ++ [QueryFilter range]
             /\ (blockchain_sync_record (db w')
                 = blockchain_sync_record (db w)
                 \/ blockchain_sync_record (db w') = Some t)).
  { intros t w1 F2 F1 E.
    pose proof (baseUpdateOrCreate_syncRecord_cases t w1) as (G1 & G2 & _).
    unfold after, cursor in G1, G2. rewrite E in G1, G2. cbn [fst] in G1, G2.
    split; [now rewrite G1|].
    destruct G2 as [G2|G2]; [left; now rewrite G2 | right; exact G2]. }
  destruct range as [[fromBlock toBlock]|] eqn:Erange.
  - (* incremental mode *)
    assert (Hrange : exists c, blockchain_sync_record (db w) = Some c
                               /\ fromBlock = c + 1
                               /\ toBlock = Z.min safe (c + 1 + 1999)).
    { unfold range in Erange.
      destruct (blockchain_sync_record (db w)) as [c|]; [|discriminate].
      destruct (Z.eqb (c + 1) 0); [discriminate|].
      injection Erange as <- <-. eauto. }
    destruct Hrange as (c & Hc & -> & ->).
    rewrite Hc in Run. cbn [option_map] in Run. rewrite call_run in Run.
    match type of Run with
    | context [syncCurationEvents env provider ?evs ?w0] =>
        pose proof (cursorFrame_syncCurationEvents env provider evs w0)
          as (F1 & F2 & _);
        unfold after in F1, F2;
        destruct (syncCurationEvents env provider evs w0) as [w1 [n|e]]
    end; cbn [fst snd db calls] in *.
    + unfold ret in Run.
      destruct (Hwrite _ _ F2 F1 Run) as [C [K|K]].
      * split; [exact C|]. split; [reflexivity|]. left. exact K.
      * split; [exact C|]. split; [reflexivity|]. right.
        exists (Z.min safe (c + 1 + 1999)). now split.
    + injection Run as <- <-.
      split; [exact F2|]. split; [reflexivity|]. left. exact F1.
  - (* catch-up mode *)
    rewrite call_run in Run.
    match type of Run with
    | context [syncCurationEvents env provider ?evs ?w0] =>
        pose proof (cursorFrame_syncCurationEvents env provider evs w0)
          as (F1 & F2 & _);
        unfold after in F1, F2;
        set (filtered := evs) in *;
        destruct (syncCurationEvents env provider filtered w0) as [w1 [n|e]]
    end; cbn [fst snd db calls] in *.
    2:{ injection Run as <- <-.
        split; [exact F2|]. split; [reflexivity|]. left. exact F1. }
    destruct (Nat.eqb (length (queryFilter provider None)) (length filtered)).
    + unfold ret in Run.
      destruct (Hwrite _ _ F2 F1 Run) as [C [K|K]].
      * split; [exact C|]. split; [reflexivity|]. left. exact K.
      * split; [exact C|]. split; [reflexivity|]. right.
        exists safe. split; [exact K | now left].
    + destruct (nth_error filtered (length filtered - 1)) as [e|] eqn:Elast.
      * unfold ret in Run.
        destruct (Hwrite _ _ F2 F1 Run) as [C [K|K]].
        -- split; [exact C|]. split; [reflexivity|]. left. exact K.
        -- split; [exact C|]. split; [reflexivity|]. right.
           exists (blockNumber e). split; [exact K|]. right. exists e.
           apply nth_error_In in Elast. unfold filtered in Elast.
           apply filter_In in Elast. destruct Elast as [Hin Hle].
           apply Z.leb_le in Hle. now repeat split.
      * unfold throw in Run. injection Run as <- <-.
        split; [exact F2|]. split; [reflexivity|]. left. exact F1.
Qed.

(** One run moves the cursor forward, if at all, and stays at or below the
    safe height of the chain it ran against. *)
Lemma cursor_step env provider w :
  blocksNonNegative provider ->
  (forall c, cursor w = Some c -> c <= safeHeight env provider) ->
  let w' := after (_handleSyncCurationEvents env provider) w in
  cursorStep w w'
  /\ (forall c', cursor w' = Some c' -> c' <= safeHeight env provider).
Proof.
  intros Hblocks Hbound w'.
  destruct (handleSyncCurationEvents_cases env provider w)
    as (range & Hcalls & Hrange & Hcur).
  fold w' in Hcalls, Hcur.
  set (safe := safeHeight env provider) in *.
  assert (Hnew : cursor w' = cursor w
                 \/ exists t, cursor w' = Some t /\ t <= safe
                              /\ forall c, cursor w = Some c -> c <= t).
  { destruct Hcur as [Hsame|(t & Ht & Hwhich)]; [now left|].
    right. exists t. split; [exact Ht|].
    destruct (cursor w) as [c|] eqn:Ec.
    - specialize (Hbound c eq_refl).
      destruct (Z.eqb (c + 1) 0) eqn:Ez; subst range.
      + apply Z.eqb_eq in Ez.
        destruct Hwhich as [->|(e & Hin & Hle & ->)].
        * split; [lia|]. intros c0 E0. injection E0 as <-. lia.
        * split; [lia|]. intros c0 E0. injection E0 as <-.
          pose proof (Hblocks None e Hin). lia.
      + subst t. split; [lia|]. intros c0 E0. injection E0 as <-. lia.
    - subst range.
      destruct Hwhich as [->|(e & Hin & Hle & ->)];
        (split; [lia | intros c0 E0; discriminate E0]). }
  split.
  - split.
    + unfold cursor_le.
      destruct Hnew as [->|(t & -> & _ & Hle)].
      * destruct (cursor w); [lia | exact I].
      * destruct (cursor w) as [c|]; [now apply Hle | exact I].
    + exists range. split; [exact Hcalls|].
      intros c Ec. rewrite Ec in Hrange. subst range.
      destruct (Z.eqb (c + 1) 0) eqn:Ez.
      * apply Z.eqb_eq in Ez. split; [cbn; lia | intros; lia].
      * split; [reflexivity | intros; eauto].
  - intros c' Ec'.
    destruct Hnew as [Hsame|(t & Ht & Hle & _)].
    + apply Hbound. congruence.
    + rewrite Ht in Ec'. injection Ec' as <-. exact Hle.
Qed.

Lemma nonDecreasing_cons a b l :
  nonDecreasing (a :: b :: l) = true -> a <= b /\ nonDecreasing (b :: l) = true.
Proof.
  cbn [nonDecreasing]. intros H. apply andb_prop in H.
  destruct H as [H1 H2]. apply Z.leb_le in H1. now split.
Qed.

(** C9.  Over any sequence of sync runs against chain views of
    non-decreasing height, the persisted cursor never decreases from one run
    to the next, and a run that starts from cursor [c] asks the chain for
    logs from block [c + 1] on: as the range [c + 1, toBlock], or, when
    [c + 1] is 0, as the query without a range, which starts at block 0. *)
Theorem cursor_monotone env providers w :
  nonDecreasing (map getBlockNumber providers) = true ->
  Forall blocksNonNegative providers ->
  (forall c p, cursor w = Some c -> hd_error providers = Some p ->
               c <= safeHeight env p) ->
  Forall (fun s => cursorStep (fst s) (snd s))
         (steps (w :: syncRuns env providers w)).
Proof.
  revert w. induction providers as [|p ps IH]; intros w Hmono Hblocks Hbound.
  - constructor.
  - cbn [syncRuns].
    set (w' := after (_handleSyncCurationEvents env p) w).
    inversion Hblocks as [|? ? Hp Hps]; subst.
    destruct (cursor_step env p w Hp (fun c E => Hbound c p E eq_refl))
      as [Hstep Hbound'].
    fold w' in Hstep, Hbound'.
    change (steps (w :: w' :: syncRuns env ps w'))
      with ((w, w') :: steps (w' :: syncRuns env ps w')).
    constructor; [exact Hstep|].
    apply IH; [| exact Hps |].
    + destruct ps as [|q qs]; [reflexivity|].
      cbn [map] in Hmono. now apply nonDecreasing_cons in Hmono.
    + intros c q Ec Hq. destruct ps as [|q' qs]; [discriminate|].
      injection Hq as ->. cbn [map] in Hmono.
      apply nonDecreasing_cons in Hmono. destruct Hmono as [Hle _].
      specialize (Hbound' c Ec). unfold safeHeight in *. lia.
Qed.

(** C9 at the sample store: a catch-up run followed by two incremental runs
    against a chain that has grown. *)
Lemma cursor_monotone_witness :
  let providers := [Sample.catchUpChain; Sample.chain 3000 10000000 [];
                    Sample.chain 3000 10000000 []] in
  let w := Sample.world Sample.store in
  Forall (fun s => cursorStep (fst s) (snd s))
         (steps (w :: syncRuns Sample.env providers w))
  /\ map cursor (w :: syncRuns Sample.env providers w)
     = [None; Some 500; Some 2500; Some 2988].
Proof.
  intros providers w. split; [|reflexivity].
  apply (cursor_monotone Sample.env providers w).
  - reflexivity.
  - repeat constructor; intros range e Hin; cbn in Hin;
      repeat (destruct Hin as [<-|Hin]; [cbn; lia|]); destruct Hin.
  - intros c p Hc. discriminate Hc.
Defined.

Lemma faults_after_syncCurationEvents env provider events w w1 r :
  faults w = [] ->
  syncCurationEvents env provider events w = (w1, r) ->
  faults w1 = [].
Proof.
  intros Hf E.
  destruct (cursorFrame_syncCurationEvents env provider events w)
    as (_ & _ & H).
  unfold after in H. rewrite E in H. now apply H.
Qed.

Lemma nth_error_last {A} (front : list A) e :
  nth_error (front ++ [e]) (length (front ++ [e]) - 1) = Some e.
Proof.
  rewrite length_app. cbn [length].
  replace (length front + 1 - 1)%nat with (length front) by lia.
  rewrite nth_error_app2 by lia. now rewrite Nat.sub_diag.
Qed.

(** C3 (amended).  In catch-up mode (no sync record) on a store that does
    not fail, a run queries the logs with no block bound, processes exactly
    the events at blocks not exceeding the safe height and, when that
    processing ends without error, persists the safe height as cursor when
    no event was filtered out, and the block number of the last processed
    event when some event was filtered out and some event was processed.
    With height 1000, 12 confirmations (safe height 988) and events at blocks
    500, 990, 995 the processed events are the one at block 500 and the
    cursor becomes 500. *)
Theorem catchUp_cursor env provider w w1 n :
  faults w = [] ->
  cursor w = None ->
  let safe := safeHeight env provider in
  let events := queryFilter provider None in
  let filtered := withinSafe safe events in
  let m := _handleSyncCurationEvents env provider in
  syncCurationEvents env provider filtered (after (call (QueryFilter None)) w)
  = (w1, Ok n) ->
  (calls (after m w) = calls w ++ [QueryFilter None]
   /\ (length events = length filtered ->
       outcome m w = Ok tt
       /\ db (after m w) = with_sync_record (Some safe) (db w1))
   /\ (forall front e,
         length events <> length filtered ->
         filtered = front ++ [e] ->
         outcome m w = Ok tt
         /\ db (after m w) = with_sync_record (Some (blockNumber e)) (db w1)))
  /\ (BLOCKCHAIN_SAFE_CONFIRMS_Polygon env = 12 ->
      getBlockNumber provider = 1000 ->
      map blockNumber events = [500; 990; 995] ->
      map blockNumber filtered = [500]
      /\ cursor (after m w) = Some 500).
Proof.
  intros Hf Hc safe events filtered m Hsync.
  pose proof (faults_after_syncCurationEvents env provider filtered
                (after (call (QueryFilter None)) w) w1 (Ok n) Hf Hsync)
    as Hf1.
  assert (Hcalls1 : calls w1 = calls w ++ [QueryFilter None]).
  { destruct (cursorFrame_syncCurationEvents env provider filtered
                (after (call (QueryFilter None)) w)) as (_ & H & _).
    unfold after in H at 1. rewrite Hsync in H. exact H. }
  assert (Run : m w
                = (toBlockNum <-
                     (if Nat.eqb (length events) (length filtered)
                      then ret safe
                      else match nth_error filtered (length filtered - 1) with
                           | Some e => ret (blockNumber e)
                           | None => throw TypeError
                           end) ;;
                   baseUpdateOrCreate_syncRecord toBlockNum) w1).
  { unfold m, _handleSyncCurationEvents. unfold cursor in Hc.
    fold (safeHeight env provider). fold safe. fold events.
    unfold bind at 1. unfold getDb. rewrite Hc. cbn [option_map falsy].
    unfold bind at 1. unfold bind at 1. unfold bind at 1.
    change (call (QueryFilter None) w)
      with (after (call (QueryFilter None)) w, @Ok unit tt).
    cbv beta iota.
    change (filter (fun e => Z.leb (blockNumber e) safe) events)
      with filtered.
    rewrite Hsync. reflexivity. }
  assert (Written : forall t,
             baseUpdateOrCreate_syncRecord t w1
             = (fst (baseUpdateOrCreate_syncRecord t w1), Ok tt)
             /\ db (fst (baseUpdateOrCreate_syncRecord t w1))
                = with_sync_record (Some t) (db w1)
             /\ calls (fst (baseUpdateOrCreate_syncRecord t w1)) = calls w1).
  { intros t.
    pose proof (baseUpdateOrCreate_syncRecord_cases t w1) as (G1 & _ & G3).
    destruct (G3 Hf1) as [G4 G5]. unfold after, outcome in *.
    destruct (baseUpdateOrCreate_syncRecord t w1) as [w2 r].
    cbn [fst snd] in *. subst r. repeat split; assumption. }
  assert (General :
    calls (after m w) = calls w ++ [QueryFilter None]
    /\ (length events = length filtered ->
        outcome m w = Ok tt
        /\ db (after m w) = with_sync_record (Some safe) (db w1))
    /\ (forall front e,
          length events <> length filtered ->
          filtered = front ++ [e] ->
          outcome m w = Ok tt
          /\ db (after m w) = with_sync_record (Some (blockNumber e)) (db w1))).
  { unfold after, outcome. rewrite Run. unfold bind.
    split; [|split].
    - destruct (Nat.eqb (length events) (length filtered)).
      + unfold ret. destruct (Written safe) as (_ & _ & ->). exact Hcalls1.
      + destruct (nth_error filtered (length filtered - 1)) as [e|].
        * unfold ret. destruct (Written (blockNumber e)) as (_ & _ & ->).
          exact Hcalls1.
        * exact Hcalls1.
    - intros Hlen. apply Nat.eqb_eq in Hlen. rewrite Hlen. unfold ret.
      destruct (Written safe) as (-> & Hdb & _). split; [reflexivity|].
      exact Hdb.
    - intros front e Hlen Hlast. apply Nat.eqb_neq in Hlen. rewrite Hlen.
      assert (Hn : nth_error filtered (length filtered - 1) = Some e)
        by (rewrite Hlast; apply nth_error_last).
      rewrite Hn. unfold ret.
      destruct (Written (blockNumber e)) as (-> & Hdb & _).
      split; [reflexivity | exact Hdb]. }
  split; [exact General|].
  intros Hconf Hheight Hblocks.
  assert (Hsafe : safe = 988) by (unfold safe, safeHeight; lia).
  destruct events as [|e1 [|e2 [|e3 [|? ?]]]] eqn:Eev; try discriminate Hblocks.
  injection Hblocks as B1 B2 B3.
  assert (Hfil : filtered = [e1]).
  { unfold filtered, withinSafe. cbn [filter]. rewrite Hsafe, B1, B2, B3.
    reflexivity. }
  split; [now rewrite Hfil; cbn; rewrite B1|].
  destruct General as (_ & _ & Hlast).
  destruct (Hlast [] e1) as [_ Hdb].
  - rewrite Hfil. cbn. lia.
  - exact Hfil.
  - unfold cursor. rewrite Hdb, B1. reflexivity.
Qed.

(** C3 at the catch-up scenario of the specification. *)
Lemma catchUp_cursor_witness :
  let m := _handleSyncCurationEvents Sample.env Sample.catchUpChain in
  let w := Sample.world Sample.store in
  map blockNumber
      (withinSafe (safeHeight Sample.env Sample.catchUpChain)
                  (queryFilter Sample.catchUpChain None)) = [500]
  /\ cursor (after m w) = Some 500.
Proof.
  intros m w.
  set (w0 := after (call (QueryFilter None)) w).
  set (sync := syncCurationEvents Sample.env Sample.catchUpChain
                 (withinSafe (safeHeight Sample.env Sample.catchUpChain)
                             (queryFilter Sample.catchUpChain None))).
  exact (proj2 (catchUp_cursor Sample.env Sample.catchUpChain w
                  (after sync w0) 1%nat eq_refl eq_refl
                  (run_pairing sync w0 (Ok 1%nat) eq_refl))
               eq_refl eq_refl eq_refl).
Defined.

(** C3, as stated, fails at its own scenario: block 990 exceeds the safe
    height 988, so only the event at block 500 is processed and the cursor
    becomes 500, not 990. *)
Lemma catchUp_scenario_cursor_is_500 :
  let m := _handleSyncCurationEvents Sample.env Sample.catchUpChain in
  let w := Sample.world Sample.store in
  safeHeight Sample.env Sample.catchUpChain = 988
  /\ map blockNumber (queryFilter Sample.catchUpChain None) = [500; 990; 995]
  /\ cursor w = None
  /\ map blockNumber
       (withinSafe 988 (queryFilter Sample.catchUpChain None)) = [500]
  /\ map blockNumber
       (withinSafe 988 (queryFilter Sample.catchUpChain None)) <> [500; 990]
  /\ outcome m w = Ok tt
  /\ cursor (after m w) = Some 500
  /\ cursor (after m w) <> Some 990.
Proof.
  repeat split; try reflexivity; vm_compute; discriminate.
Qed.

(** C4 (amended).  In incremental mode (a sync record with cursor [c],
    [c + 1] not 0) on a store that does not fail, a run queries exactly the
    block range from [c + 1] to the smaller of the safe height and
    [c + 1 + 1999] and, when the processing of the returned events ends
    without error, persists the upper bound of that range as cursor.  With
    cursor 2000 and safe height 5000 the range is [2001, 4000] and the
    cursor becomes 4000. *)
Theorem incremental_range env provider w c w1 n :
  faults w = [] ->
  cursor w = Some c ->
  c <> -1 ->
  let safe := safeHeight env provider in
  let fromBlock := c + 1 in
  let toBlock := Z.min safe (c + 1 + 1999) in
  let m := _handleSyncCurationEvents env provider in
  syncCurationEvents env provider
    (queryFilter provider (Some (fromBlock, toBlock)))
    (after (call (QueryFilter (Some (fromBlock, toBlock)))) w)
  = (w1, Ok n) ->
  (calls (after m w) = calls w ++ [QueryFilter (Some (fromBlock, toBlock))]
   /\ outcome m w = Ok tt
   /\ db (after m w) = with_sync_record (Some toBlock) (db w1))
  /\ (c = 2000 -> safe = 5000 ->
      fromBlock = 2001 /\ toBlock = 4000 /\ cursor (after m w) = Some 4000).
Proof.
  intros Hf Hc Hne safe fromBlock toBlock m Hsync.
  pose proof (faults_after_syncCurationEvents env provider _
                (after (call (QueryFilter (Some (fromBlock, toBlock)))) w)
                w1 (Ok n) Hf Hsync) as Hf1.
  assert (Hcalls1 : calls w1
                    = calls w ++ [QueryFilter (Some (fromBlock, toBlock))]).
  { destruct (cursorFrame_syncCurationEvents env provider
                (queryFilter provider (Some (fromBlock, toBlock)))
                (after (call (QueryFilter (Some (fromBlock, toBlock)))) w))
      as (_ & H & _).
    unfold after in H at 1. rewrite Hsync in H. exact H. }
  assert (Run : m w = baseUpdateOrCreate_syncRecord toBlock w1).
  { unfold m, _handleSyncCurationEvents. unfold cursor in Hc.
    fold (safeHeight env provider). fold safe.
    unfold bind at 1. unfold getDb. rewrite Hc. cbn [option_map falsy].
    assert (Hz : Z.eqb (c + 1) 0 = false) by (apply Z.eqb_neq; lia).
    rewrite Hz. cbv beta iota zeta. fold toBlock. fold fromBlock.
    unfold bind at 1. unfold bind at 1. unfold bind at 1.
    change (call (QueryFilter (Some (fromBlock, toBlock))) w)
      with (after (call (QueryFilter (Some (fromBlock, toBlock)))) w,
            @Ok unit tt).
    cbv beta iota. rewrite Hsync. reflexivity. }
  pose proof (baseUpdateOrCreate_syncRecord_cases toBlock w1)
    as (G1 & _ & G3).
  destruct (G3 Hf1) as [G4 G5].
  assert (General :
    calls (after m w) = calls w ++ [QueryFilter (Some (fromBlock, toBlock))]
    /\ outcome m w = Ok tt
    /\ db (after m w) = with_sync_record (Some toBlock) (db w1)).
  { unfold after, outcome in *. rewrite Run.
    split; [now rewrite G1|]. split; assumption. }
  split; [exact General|].
  intros Hc2000 Hsafe. destruct General as (_ & _ & Hdb).
  unfold cursor. rewrite Hdb. unfold fromBlock, toBlock.
  rewrite Hc2000, Hsafe. repeat split.
Qed.

(** C4 at the incremental scenario of the specification. *)
Lemma incremental_range_witness :
  let m := _handleSyncCurationEvents Sample.env Sample.incrementalChain in
  let w := Sample.world (Sample.synced 2000) in
  calls (after m w) = [QueryFilter (Some (2001, 4000))]
  /\ cursor (after m w) = Some 4000.
Proof.
  intros m w.
  set (w0 := after (call (QueryFilter (Some (2001, 4000)))) w).
  set (sync := syncCurationEvents Sample.env Sample.incrementalChain
                 (queryFilter Sample.incrementalChain (Some (2001, 4000)))).
  pose proof (incremental_range Sample.env Sample.incrementalChain w 2000
                (after sync w0) 0%nat eq_refl eq_refl) as H.
  assert (Hne : 2000 <> -1) by lia.
  destruct (H Hne eq_refl) as [(Hcalls & _) Hscenario].
  destruct (Hscenario eq_refl eq_refl) as (_ & _ & Hcur).
  split; [exact Hcalls | exact Hcur].
Defined.

(** C4, as stated, fails at its own scenario: from cursor 2000 the range is
    [2001, 2001 + 1999] = [2001, 4000] and the cursor becomes 4000, not
    3999. *)
Lemma incremental_scenario_cursor_is_4000 :
  let m := _handleSyncCurationEvents Sample.env Sample.incrementalChain in
  let w := Sample.world (Sample.synced 2000) in
  cursor w = Some 2000
  /\ safeHeight Sample.env Sample.incrementalChain = 5000
  /\ calls (after m w) = [QueryFilter (Some (2001, 4000))]
  /\ calls (after m w) <> [QueryFilter (Some (2001, 3999))]
  /\ outcome m w = Ok tt
  /\ cursor (after m w) = Some 4000
  /\ cursor (after m w) <> Some 3999.
Proof.
  repeat split; try reflexivity; vm_compute; discriminate.
Qed.

(** * Further properties of the queue *)

(** ** Log matching *)

Lemma logMatches_specLogMatches env c k p log :
  curatorAddress p = Some c ->
  creatorAddress p = Some k ->
  logMatches env c k p log = specLogMatches env p log.
Proof.
  intros Ec Ek. unfold logMatches, specLogMatches. rewrite Ec, Ek.
  unfold ignoreCaseMatch, contractAddress.
  destruct (String.eqb (Str.toLowerCase (log_address log))
                       (Str.toLowerCase (curationContractAddress env)));
    destruct (first_topic_is topic log); reflexivity.
Qed.

Lemma existsb_pointwise {A} (f g : A -> bool) l :
  (forall a, f a = g a) -> existsb f l = existsb g l.
Proof.
  intros H. induction l as [|a l IH]; cbn; [reflexivity|].
  now rewrite H, IH.
Qed.

(** [containMatchedEvent] answers [true] exactly when the curator and the
    creator address are both present and non-empty and some log of the
    receipt comes from the curation contract, carries the Curation topic and
    decodes to the expected curator, creator, token, amount and content
    identifier. *)
Theorem containMatchedEvent_characterised env logs p :
  containMatchedEvent env logs p
  = andb (truthy (curatorAddress p))
         (andb (truthy (creatorAddress p))
               (existsb (specLogMatches env p) logs)).
Proof.
  unfold containMatchedEvent.
  destruct logs as [|l0 ls].
  - cbn [existsb]. now rewrite !andb_false_r.
  - destruct (curatorAddress p) as [c|] eqn:Ec; cbn [truthy];
      [|reflexivity].
    destruct (creatorAddress p) as [k|] eqn:Ek; cbn [truthy].
    + destruct (negb (String.eqb c "")); cbn [negb orb andb]; [|reflexivity].
      destruct (negb (String.eqb k "")); cbn [negb orb andb]; [|reflexivity].
      apply existsb_pointwise. intros log.
      now apply logMatches_specLogMatches.
    + now rewrite orb_true_r, andb_false_r.
Qed.

(** ** The shared helper *)

(** The helper writes both states or none: when neither of its two writes
    fails, the ledger row and the blockchain transaction are both updated in
    one committed unit; when one of them fails, the error is rethrown and
    the store and the committed units are what they were. *)
Theorem updateTxAndBlockchainTxState_all_or_nothing txId s r bid bs w :
  let m := updateTxAndBlockchainTxState txId s r bid bs in
  (faultWithin 2 w = false ->
   outcome m w = Ok tt
   /\ db (after m w) = apply_unit (pairUnit txId s r bid bs) (db w)
   /\ committed (after m w) = committed w ++ [pairUnit txId s r bid bs])
  /\ (faultWithin 2 w = true ->
      outcome m w = Err DbError
      /\ db (after m w) = db w
      /\ committed (after m w) = committed w).
Proof.
  intros m. subst m.
  unfold faultWithin, after, outcome, updateTxAndBlockchainTxState,
    knex_transaction, markTransactionStateAs,
    markBlockchainTransactionStateAs, exec, bind, write.
  cbn [faults db committed open_unit job calls].
  destruct (faults w) as [|[] [|[] fs]]; cbn; split; intros H;
    try discriminate H; repeat split; reflexivity.
Qed.

(** The helper on the sample store, without a failure and with the second
    write failing. *)
Lemma updateTxAndBlockchainTxState_all_or_nothing_witness :
  let m := updateTxAndBlockchainTxState 1 succeeded None 1 bc_succeeded in
  let w := Sample.world Sample.store in
  let w' := mkWorld Sample.store [false; true] [] [] (mkJob false 0) [] in
  (ledgerState (db (after m w)) 1%nat = Some (succeeded, None)
   /\ chainState (db (after m w)) 1%nat = Some bc_succeeded)
  /\ (outcome m w' = Err DbError /\ db (after m w') = Sample.store).
Proof.
  intros m w w'.
  destruct (updateTxAndBlockchainTxState_all_or_nothing
              1 succeeded None 1 bc_succeeded w) as [Hok _].
  destruct (updateTxAndBlockchainTxState_all_or_nothing
              1 succeeded None 1 bc_succeeded w') as [_ Hfail].
  destruct (Hok eq_refl) as (_ & Hdb & _).
  destruct (Hfail eq_refl) as (He & Hd & _).
  split; [|split; [exact He | exact Hd]].
  fold m in Hdb. rewrite Hdb. split; reflexivity.
Defined.

Lemma updateTxAndBlockchainTxState_cases txId s r bid bs w w1 r1 :
  updateTxAndBlockchainTxState txId s r bid bs w = (w1, r1) ->
  calls w1 = calls w /\ job w1 = job w
  /\ ((r1 = Ok tt
       /\ db w1 = apply_unit (pairUnit txId s r bid bs) (db w)
       /\ committed w1 = committed w ++ [pairUnit txId s r bid bs])
      \/ (r1 = Err DbError /\ db w1 = db w /\ committed w1 = committed w)).
Proof.
  unfold updateTxAndBlockchainTxState, knex_transaction,
    markTransactionStateAs, markBlockchainTransactionStateAs, exec, bind,
    write.
  cbn [faults db committed open_unit job calls].
  destruct (faults w) as [|[] [|[] fs]]; cbn; intros H;
    injection H as <- <-; cbn; repeat split; auto.
Qed.

(** ** The pay-to verifier: the remaining branches *)

(** What a pay-to attempt can have done when it ends: nothing to the store,
    or one unit of the shared helper on the pair of the job. *)
Lemma handlePayTo_cases env provider txId w :
  let w' := after (handlePayTo env provider txId) w in
  let r := outcome (handlePayTo env provider txId) w in
  (db w' = db w /\ committed w' = committed w /\ calls w' = calls w
   /\ r <> Ok tt)
  \/ (exists tx b s rm bs,
        baseFindById (db w) txId = Some tx
        /\ findBlockchainTransactionById (db w) (tx_providerTxId tx) = Some b
        /\ db w' = apply_unit (pairUnit txId s rm (bc_id b) bs) (db w)
        /\ committed w' = committed w ++ [pairUnit txId s rm (bc_id b) bs]
        /\ (r = Ok tt \/ r = Err TypeError)).
Proof.
  intros w' r. subst w' r. unfold after, outcome.
  destruct (handlePayTo env provider txId w) as [w' r] eqn:Run.
  cbn [fst snd].
  unfold handlePayTo, bind, getDb in Run.
  destruct (baseFindById (db w) txId) as [tx|] eqn:Htx.
  2:{ cbn in Run. injection Run as <- <-. left. cbn.
      repeat split; discriminate. }
  destruct (provider_eqb (tx_provider tx) blockchain); cbn [negb] in Run.
  2:{ cbn in Run. injection Run as <- <-. left. cbn.
      repeat split; discriminate. }
  destruct (findBlockchainTransactionById (db w) (tx_providerTxId tx))
    as [b|] eqn:Hb.
  2:{ cbn in Run. injection Run as <- <-. left. cbn.
      repeat split; discriminate. }
  destruct (getTransactionReceipt provider (bc_txHash b)) as [rc|].
  2:{ cbn in Run. injection Run as <- <-. left. cbn.
      repeat split; discriminate. }
  assert (Helper : forall s rm bs w1 r1,
            updateTxAndBlockchainTxState txId s rm (bc_id b) bs w = (w1, r1) ->
            (db w1 = db w /\ committed w1 = committed w /\ calls w1 = calls w
             /\ r1 <> Ok tt)
            \/ (r1 = Ok tt
                /\ calls w1 = calls w
                /\ db w1 = apply_unit (pairUnit txId s rm (bc_id b) bs) (db w)
                /\ committed w1
                   = committed w ++ [pairUnit txId s rm (bc_id b) bs])).
  { intros s rm bs w1 r1 E.
    apply updateTxAndBlockchainTxState_cases in E.
    destruct E as (Hc & _ & [(-> & Hd & Hu)|(-> & Hd & Hu)]).
    - right. repeat split; assumption.
    - left. repeat split; try assumption. discriminate. }
  destruct (Z.eqb (status rc) 0).
  { unfold failBothTxAndBlockchainTx in Run.
    destruct (Helper _ _ _ _ _ Run) as [H|(-> & _ & Hd & Hu)]; [now left|].
    right. exists tx, b, failed, None, bc_reverted. repeat split; auto. }
  destruct (userBaseFindById (db w) (tx_recipientId tx)) as [recipient|].
  2:{ unfold throw in Run. injection Run as <- <-. left.
      repeat split; discriminate. }
  destruct (userBaseFindById (db w) (tx_senderId tx)) as [sender|].
  2:{ unfold throw in Run. injection Run as <- <-. left.
      repeat split; discriminate. }
  destruct (findFirstArticle (db w) (tx_targetId tx)) as [articleDb|].
  2:{ unfold throw in Run. injection Run as <- <-. left.
      repeat split; discriminate. }
  destruct (containMatchedEvent env (logs rc) _); cbn [negb] in Run.
  - unfold succeedBothTxAndBlockchainTx in Run.
    destruct (updateTxAndBlockchainTxState txId succeeded None (bc_id b)
                bc_succeeded w) as [w1 r1] eqn:E.
    destruct (Helper _ _ _ _ _ E) as [(Hd & Hu & Hc & Hr)|(-> & Hc & Hd & Hu)].
    + destruct r1 as [[]|e]; [congruence|]. injection Run as <- <-.
      left. repeat split; auto.
    + right. exists tx, b, succeeded, None, bc_succeeded.
      split; [first [reflexivity | assumption]|].
      split; [first [reflexivity | assumption]|].
      destruct (find_by u_id (a_authorId articleDb) (user (db w1))).
      * cbn in Run. injection Run as <- <-. cbn. repeat split; auto.
      * unfold throw in Run. injection Run as <- <-. repeat split; auto.
  - destruct (Helper _ _ _ _ _ Run) as [H|(-> & _ & Hd & Hu)]; [now left|].
    right. exists tx, b, canceled, (Some INVALID), bc_succeeded.
    repeat split; auto.
Qed.

(** A pay-to attempt that ends in a job-data error (missing ledger row,
    wrong provider, missing blockchain transaction, receipt not mined) has
    written nothing and has sent nothing, whatever the store was. *)
Theorem handlePayTo_job_data_error_leaves_no_trace env provider txId w msg :
  outcome (handlePayTo env provider txId) w
  = Err (PaymentQueueJobDataError msg) ->
  db (after (handlePayTo env provider txId) w) = db w
  /\ committed (after (handlePayTo env provider txId) w) = committed w
  /\ calls (after (handlePayTo env provider txId) w) = calls w.
Proof.
  intros Hr.
  destruct (handlePayTo_cases env provider txId w)
    as [(Hd & Hu & Hc & _)|(tx & b & s & rm & bs & _ & _ & _ & _ & [H|H])].
  - repeat split; assumption.
  - rewrite H in Hr. discriminate.
  - rewrite H in Hr. discriminate.
Qed.

(** A job for a ledger row that does not exist, on the sample store. *)
Lemma handlePayTo_job_data_error_leaves_no_trace_witness :
  let m := handlePayTo Sample.env (Sample.chain 1000 10000000 []) 99%nat in
  let w := Sample.world Sample.store in
  db (after m w) = db w
  /\ committed (after m w) = committed w
  /\ calls (after m w) = calls w.
Proof.
  exact (handlePayTo_job_data_error_leaves_no_trace Sample.env
           (Sample.chain 1000 10000000 []) 99%nat (Sample.world Sample.store)
           "pay-to pending tx not found" eq_refl).
Defined.

Lemma find_by_update_other {R} (key : R -> Id) i j (f : R -> R) rows :
  (forall r, key (f r) = key r) ->
  i <> j ->
  find_by key i (update_where key j f rows) = find_by key i rows.
Proof.
  intros Hk Hne. rewrite find_by_update by exact Hk.
  destruct (find_by key i rows) as [r|] eqn:E; [|reflexivity].
  cbn. apply find_by_key in E. rewrite E.
  destruct (Nat.eqb i j) eqn:Eij; [|reflexivity].
  apply Nat.eqb_eq in Eij. contradiction.
Qed.

(** A pay-to attempt, whatever its outcome and whatever the store does,
    changes no ledger row but the one of the job, no blockchain transaction
    but the one that row refers to, creates and deletes no row, and leaves
    users, articles, mirror table and sync record alone. *)
Theorem handlePayTo_touches_only_its_pair env provider txId w :
  let w' := after (handlePayTo env provider txId) w in
  (forall i, i <> txId -> baseFindById (db w') i = baseFindById (db w) i)
  /\ (forall tx j,
        baseFindById (db w) txId = Some tx ->
        tx_providerTxId tx <> Some j ->
        find_by bc_id j (blockchain_transaction (db w'))
        = find_by bc_id j (blockchain_transaction (db w)))
  /\ map tx_id (transaction (db w')) = map tx_id (transaction (db w))
  /\ map bc_id (blockchain_transaction (db w'))
     = map bc_id (blockchain_transaction (db w))
  /\ user (db w') = user (db w)
  /\ article (db w') = article (db w)
  /\ blockchain_curation_event (db w') = blockchain_curation_event (db w)
  /\ blockchain_sync_record (db w') = blockchain_sync_record (db w).
Proof.
  intros w'. subst w'.
  destruct (handlePayTo_cases env provider txId w)
    as [(Hd & _)|(tx & b & s & rm & bs & Htx & Hb & Hd & _)];
    rewrite Hd.
  - repeat split; reflexivity.
  - assert (Hids : forall {R} (key : R -> Id) i (f : R -> R) rows,
               (forall r, key (f r) = key r) ->
               map key (update_where key i f rows) = map key rows).
    { intros R key i f rows Hk. unfold update_where. rewrite map_map.
      apply map_ext. intros r0.
      destruct (Nat.eqb (key r0) i); [apply Hk | reflexivity]. }
    cbn [apply_unit pairUnit fold_left apply_write with_transaction
         with_blockchain_transaction transaction blockchain_transaction
         user article blockchain_curation_event blockchain_sync_record].
    unfold baseFindById.
    cbn [transaction blockchain_transaction].
    split; [|split; [|split; [|split]]].
    + intros i Hi. now apply find_by_update_other.
    + intros tx0 j Htx0 Hj. unfold baseFindById in Htx, Htx0.
      rewrite Htx in Htx0. injection Htx0 as <-.
      apply find_by_update_other; [reflexivity|].
      intros ->. apply Hj.
      unfold findBlockchainTransactionById in Hb.
      destruct (tx_providerTxId tx) as [i|]; [|discriminate].
      apply find_by_key in Hb. now rewrite Hb.
    + now apply Hids.
    + now apply Hids.
    + repeat split; reflexivity.
Qed.

(** The pair of a job on the sample store is the only thing its attempt
    touches. *)
Lemma handlePayTo_touches_only_its_pair_witness :
  let m := handlePayTo Sample.env (Sample.chain 1000 10000000 []) 1%nat in
  let w := Sample.world Sample.store in
  baseFindById (db (after m w)) 2%nat = Some Sample.donation2
  /\ find_by bc_id 2%nat (blockchain_transaction (db (after m w)))
     = Some Sample.chainTx2.
Proof.
  intros m w.
  destruct (handlePayTo_touches_only_its_pair Sample.env
              (Sample.chain 1000 10000000 []) 1%nat w) as (H1 & H2 & _).
  assert (N1 : 2%nat <> 1%nat) by discriminate.
  assert (N2 : tx_providerTxId Sample.donation1 <> Some 2%nat) by discriminate.
  split.
  - exact (H1 2%nat N1).
  - exact (H2 Sample.donation1 2%nat eq_refl N2).
Defined.

(** A receipt with status 0 settles the pair to failed / reverted without
    loading the sender, the recipient or the article and without reading the
    logs: the attempt ends without error, the remark stays, nothing is sent. *)
Theorem handlePayTo_reverted_receipt env provider txId w tx b rc :
  faults w = [] ->
  baseFindById (db w) txId = Some tx ->
  tx_provider tx = blockchain ->
  findBlockchainTransactionById (db w) (tx_providerTxId tx) = Some b ->
  getTransactionReceipt provider (bc_txHash b) = Some rc ->
  status rc = 0 ->
  let m := handlePayTo env provider txId in
  outcome m w = Ok tt
  /\ ledgerState (db (after m w)) txId = Some (failed, tx_remark tx)
  /\ chainState (db (after m w)) (bc_id b) = Some bc_reverted
  /\ committed (after m w)
     = committed w ++ [pairUnit txId failed None (bc_id b) bc_reverted]
  /\ calls (after m w) = calls w
  /\ job (after m w) = job w.
Proof.
  intros Hf Htx Hp Hb Hrc Hst m. subst m.
  assert (Run : handlePayTo env provider txId w
                = failBothTxAndBlockchainTx txId (bc_id b) w).
  { unfold handlePayTo, bind, getDb. rewrite Htx, Hp. cbn [provider_eqb negb].
    now rewrite Hb, Hrc, Hst. }
  unfold after, outcome. rewrite Run. run_pair Hf. cbn [fst snd db committed
                                                       calls job].
  assert (Hbid : find_by bc_id (bc_id b) (blockchain_transaction (db w)) = Some b).
  { unfold findBlockchainTransactionById in Hb.
    destruct (tx_providerTxId tx) as [i|]; [|discriminate].
    now rewrite (find_by_key _ _ _ _ Hb). }
  split; [reflexivity|]. split.
  - exact (ledgerState_pair _ _ _ _ _ _ _ Htx).
  - split; [exact (chainState_pair _ _ _ _ _ _ _ Hbid)|].
    repeat split.
Qed.

(** A chain on which every transaction is mined and reverted. *)
Lemma handlePayTo_reverted_receipt_witness :
  let revertedChain :=
    mkProvider 1000 (fun _ => []) (fun _ => Some (mkReceipt 0 [])) in
  let m := handlePayTo Sample.env revertedChain 1%nat in
  let w := Sample.world Sample.store in
  outcome m w = Ok tt
  /\ ledgerState (db (after m w)) 1%nat = Some (failed, None)
  /\ chainState (db (after m w)) 1%nat = Some bc_reverted
  /\ calls (after m w) = [].
Proof.
  intros revertedChain m w.
  destruct (handlePayTo_reverted_receipt Sample.env revertedChain 1%nat w
              Sample.donation1 Sample.chainTx1 (mkReceipt 0 [])
              eq_refl eq_refl eq_refl eq_refl eq_refl eq_refl)
    as (H1 & H2 & H3 & _ & H5 & _).
  repeat split; assumption.
Defined.

(** A receipt with a status other than 0 and a matching log settles the
    pair to succeeded / succeeded in one unit of the helper, and only then
    mails the sender, notifies the recipient and mails the recipient, in
    that order, and sets the progress of the job to 100. *)
Theorem handlePayTo_match_succeeds
    env provider txId w tx b rc recipient sender articleDb author :
  faults w = [] ->
  baseFindById (db w) txId = Some tx ->
  tx_provider tx = blockchain ->
  findBlockchainTransactionById (db w) (tx_providerTxId tx) = Some b ->
  getTransactionReceipt provider (bc_txHash b) = Some rc ->
  Z.eqb (status rc) 0 = false ->
  userBaseFindById (db w) (tx_recipientId tx) = Some recipient ->
  userBaseFindById (db w) (tx_senderId tx) = Some sender ->
  findFirstArticle (db w) (tx_targetId tx) = Some articleDb ->
  find_by u_id (a_authorId articleDb) (user (db w)) = Some author ->
  containMatchedEvent env (logs rc) (expectedOf env tx sender recipient articleDb)
  = true ->
  let m := handlePayTo env provider txId in
  outcome m w = Ok tt
  /\ ledgerState (db (after m w)) txId = Some (succeeded, tx_remark tx)
  /\ chainState (db (after m w)) (bc_id b) = Some bc_succeeded
  /\ committed (after m w)
     = committed w ++ [pairUnit txId succeeded None (bc_id b) bc_succeeded]
  /\ calls (after m w)
     = calls w
       ++ [SendPayment (u_email sender) donated txId;
           TriggerPaymentReceivedDonation (u_id sender) (u_id recipient) txId;
           SendPayment (u_email recipient) receivedDonation txId]
  /\ job (after m w) = mkJob (discarded (job w)) 100.
Proof.
  intros Hf Htx Hp Hb Hrc Hst Hr Hs Ha Hau Hm m. subst m.
  assert (Hbid : find_by bc_id (bc_id b) (blockchain_transaction (db w)) = Some b).
  { unfold findBlockchainTransactionById in Hb.
    destruct (tx_providerTxId tx) as [i|]; [|discriminate].
    now rewrite (find_by_key _ _ _ _ Hb). }
  assert (Run : handlePayTo env provider txId w
                = (mkWorld
                     (apply_unit (pairUnit txId succeeded None (bc_id b)
                                           bc_succeeded) (db w))
                     []
                     (committed w
                      ++ [pairUnit txId succeeded None (bc_id b) bc_succeeded])
                     [] (mkJob (discarded (job w)) 100)
                     (((calls w
                        ++ [SendPayment (u_email sender) donated txId])
                       ++ [TriggerPaymentReceivedDonation (u_id sender)
                             (u_id recipient) txId])
                      ++ [SendPayment (u_email recipient) receivedDonation
                            txId]),
                   Ok tt)).
  { unfold handlePayTo, bind, getDb. rewrite Htx, Hp. cbn [provider_eqb negb].
    rewrite Hb, Hrc, Hst, Hr, Hs, Ha.
    unfold expectedOf in Hm. rewrite Hm. cbn [negb].
    run_pair Hf.
    cbn [db apply_unit pairUnit fold_left apply_write user
         with_transaction with_blockchain_transaction].
    rewrite Hau. reflexivity. }
  unfold after, outcome. rewrite Run. cbn [fst snd db committed calls job].
  split; [reflexivity|]. split; [exact (ledgerState_pair _ _ _ _ _ _ _ Htx)|].
  split; [exact (chainState_pair _ _ _ _ _ _ _ Hbid)|].
  split; [reflexivity|]. split; [|reflexivity].
  now rewrite <- !app_assoc.
Qed.

(** Alice's donation on a chain whose receipt carries the 10 USDT. *)
Lemma handlePayTo_match_succeeds_witness :
  let m := handlePayTo Sample.env (Sample.chain 1000 10000000 []) 1%nat in
  let w := Sample.world Sample.store in
  outcome m w = Ok tt
  /\ ledgerState (db (after m w)) 1%nat = Some (succeeded, None)
  /\ chainState (db (after m w)) 1%nat = Some bc_succeeded
  /\ calls (after m w)
     = [SendPayment "alice@matters.test" donated 1;
        TriggerPaymentReceivedDonation 1 2 1;
        SendPayment "bob@matters.test" receivedDonation 1].
Proof.
  intros m w.
  destruct (handlePayTo_match_succeeds Sample.env
              (Sample.chain 1000 10000000 []) 1%nat w
              Sample.donation1 Sample.chainTx1
              (mkReceipt 1 [Sample.curationLog 10000000])
              Sample.bob Sample.alice Sample.essay Sample.bob
              eq_refl eq_refl eq_refl eq_refl eq_refl eq_refl eq_refl eq_refl
              eq_refl eq_refl eq_refl)
    as (H1 & H2 & H3 & _ & H5 & _).
  repeat split; assumption.
Defined.

(** ** The event synchronizer: the remaining branches of an added event *)

Lemma syncCurationEvent_added_found env provider ev w b :
  removed ev = false ->
  findBlockchainTransactionByHash (db w) (transactionHash ev) = Some b ->
  syncCurationEvent env provider ev w
  = (reconcileDonation env ev b (mirrorRow env b ev) ;;;
     ret [mirrorRow env b ev]) w.
Proof.
  intros Hrem Hfind. unfold syncCurationEvent. rewrite Hrem. cbn [negb].
  unfold bind at 1.
  now rewrite (findOrCreateBlockchainTransaction_found env _ _ w b Hfind).
Qed.

(** An added event whose blockchain transaction is already linked and
    succeeded is mirrored and otherwise skipped: the world is left exactly
    as it was, whatever the event decodes to. *)
Theorem syncCurationEvent_resolved_is_skipped env provider ev w b tid :
  removed ev = false ->
  findBlockchainTransactionByHash (db w) (transactionHash ev) = Some b ->
  bc_transactionId b = Some tid ->
  bc_state b = bc_succeeded ->
  syncCurationEvent env provider ev w = (w, Ok [mirrorRow env b ev]).
Proof.
  intros Hrem Hfind Hlink Hstate.
  rewrite (syncCurationEvent_added_found env provider ev w b Hrem Hfind).
  unfold bind, reconcileDonation. rewrite Hlink, Hstate. reflexivity.
Qed.

(** The settled donation of Alice is seen again with another amount. *)
Lemma syncCurationEvent_resolved_is_skipped_witness :
  syncCurationEvent Sample.env (Sample.chain 1000 25000000 [])
    (Sample.added 900 "0xh1" 25000000) (Sample.world Sample.settled)
  = (Sample.world Sample.settled,
     Ok [mirrorRow Sample.env (set_bc_state bc_succeeded Sample.chainTx1)
           (Sample.added 900 "0xh1" 25000000)]).
Proof.
  exact (syncCurationEvent_resolved_is_skipped Sample.env
           (Sample.chain 1000 25000000 []) (Sample.added 900 "0xh1" 25000000)
           (Sample.world Sample.settled)
           (set_bc_state bc_succeeded Sample.chainTx1) 1%nat
           eq_refl eq_refl eq_refl eq_refl).
Defined.

Lemma reconcileDonation_not_in_platform env ev b w d :
  inPlatformDonation env d ev = None ->
  user (db w) = user d ->
  article (db w) = article d ->
  reconcileDonation env ev b (mirrorRow env b ev) w = (w, Ok tt).
Proof.
  intros Hdon Hu Ha. unfold reconcileDonation.
  destruct (andb (is_some (bc_transactionId b)) _); [reflexivity|].
  unfold inPlatformDonation in Hdon.
  cbn [mirrorRow ce_tokenAddress ce_uri ce_curatorAddress ce_creatorAddress
       ce_amount].
  destruct (String.eqb (Str.toLowerCase (token (args ev)))
                       (USDTContractAddress env)); [|reflexivity].
  destruct (isValidUri (uri (args ev))); [|reflexivity].
  cbn [negb andb] in *. unfold bind, getDb.
  unfold findByEthAddress, articleBaseFind in *. rewrite Hu, Ha.
  destruct (find _ (user d)) as [cu|]; [|reflexivity].
  destruct (find _ (user d)) as [cr|]; [|reflexivity].
  destruct (filter _ (article d)) as [|a rest]; [reflexivity|].
  discriminate Hdon.
Qed.

(** An added event that is not an in-platform donation (another token, a
    URI of another scheme, a curator or creator that is no platform user, no
    article of the creator with that content identifier) is mirrored, and
    the only thing it can write is the lazily created blockchain
    transaction of a hash not seen before: no ledger row is created or
    changed. *)
Theorem syncCurationEvent_not_in_platform env provider ev w :
  removed ev = false ->
  faults w = [] ->
  inPlatformDonation env (db w) ev = None ->
  let m := syncCurationEvent env provider ev in
  match findBlockchainTransactionByHash (db w) (transactionHash ev) with
  | Some b => m w = (w, Ok [mirrorRow env b ev])
  | None =>
      let b := lazyBlockchainTransaction env (db w) (transactionHash ev)
                 (Some bc_succeeded) in
      outcome m w = Ok [mirrorRow env b ev]
      /\ db (after m w) = apply_write (InsertBlockchainTransaction b) (db w)
      /\ transaction (db (after m w)) = transaction (db w)
  end.
Proof.
  intros Hrem Hf Hdon m. subst m.
  destruct (findBlockchainTransactionByHash (db w) (transactionHash ev))
    as [b|] eqn:Hfind.
  - rewrite (syncCurationEvent_added_found env provider ev w b Hrem Hfind).
    unfold bind.
    now rewrite (reconcileDonation_not_in_platform env ev b w (db w) Hdon).
  - cbv zeta. unfold after, outcome, syncCurationEvent.
    rewrite Hrem. cbn [negb]. unfold bind at 1 3 5.
    rewrite (findOrCreateBlockchainTransaction_created env _ _ w Hf Hfind).
    cbv zeta. unfold bind.
    rewrite (reconcileDonation_not_in_platform env ev _ _ (db w) Hdon);
      [|reflexivity|reflexivity].
    repeat split.
Qed.

(** A Curation event in another token, for a hash seen and not seen. *)
Lemma syncCurationEvent_not_in_platform_witness :
  let foreign txHash :=
    mkEvent 900 false txHash (mkArgs "0xAA" "0xBB" "0xDAI" "ipfs://Qm1" 5) in
  let provider := Sample.chain 1000 10000000 [] in
  let w := Sample.world Sample.store in
  syncCurationEvent Sample.env provider (foreign "0xh1") w
  = (w, Ok [mirrorRow Sample.env Sample.chainTx1 (foreign "0xh1")])
  /\ transaction (db (after (syncCurationEvent Sample.env provider
                              (foreign "0xh7")) w))
     = transaction (db w).
Proof.
  intros foreign provider w. split.
  - exact (syncCurationEvent_not_in_platform Sample.env provider
             (foreign "0xh1") w eq_refl eq_refl eq_refl).
  - exact (proj2 (proj2 (syncCurationEvent_not_in_platform Sample.env provider
                           (foreign "0xh7") w eq_refl eq_refl eq_refl))).
Defined.

Lemma reconcileDonation_in_platform env ev b w curatorUser creatorUser article :
  andb (is_some (bc_transactionId b))
       (bc_state_eqb (bc_state b) bc_succeeded) = false ->
  inPlatformDonation env (db w) ev = Some (curatorUser, creatorUser, article) ->
  reconcileDonation env ev b (mirrorRow env b ev) w
  = match bc_transactionId b with
    | Some transactionId =>
        match baseFindById (db w) transactionId with
        | None => throw TypeError
        | Some tx =>
            if ledgerAgrees env tx curatorUser creatorUser article
                 (amount (args ev))
            then markTransactionStateAs (tx_id tx) succeeded None false
            else cancelAndReplace tx b
                   (fromTokenBaseUnit env (amount (args ev))
                      (USDTContractDecimals env))
                   creatorUser curatorUser article
        end
    | None =>
        createAndLink b
          (fromTokenBaseUnit env (amount (args ev)) (USDTContractDecimals env))
          creatorUser curatorUser article
    end w.
Proof.
  intros Hskip Hdon. unfold reconcileDonation. rewrite Hskip.
  unfold inPlatformDonation in Hdon.
  cbn [mirrorRow ce_tokenAddress ce_uri ce_curatorAddress ce_creatorAddress
       ce_amount].
  destruct (String.eqb (Str.toLowerCase (token (args ev)))
                       (USDTContractAddress env)); [|discriminate].
  destruct (isValidUri (uri (args ev))); [|discriminate].
  cbn [negb andb] in *. unfold bind, getDb.
  destruct (findByEthAddress (db w) (Str.toLowerCase (curator (args ev))))
    as [cu|]; [|discriminate].
  destruct (findByEthAddress (db w) (Str.toLowerCase (creator (args ev))))
    as [cr|]; [|discriminate].
  destruct (articleBaseFind (db w) (u_id cr) (extractCid (uri (args ev))))
    as [|a rest]; [discriminate|].
  injection Hdon as -> -> ->.
  destruct (bc_transactionId b); [|reflexivity].
  destruct (baseFindById (db w) i); reflexivity.
Qed.




(** An added event that agrees with the ledger row its blockchain
    transaction links to (same sender, recipient, target and amount) marks
    that row succeeded, keeping its remark, in a unit of its own; the
    blockchain transaction, which was not succeeded, is not written. *)
Theorem syncCurationEvent_confirms_matching_row
    env provider ev w b tid tx curatorUser creatorUser article :
  faults w = [] ->
  removed ev = false ->
  findBlockchainTransactionByHash (db w) (transactionHash ev) = Some b ->
  bc_transactionId b = Some tid ->
  bc_state_eqb (bc_state b) bc_succeeded = false ->
  inPlatformDonation env (db w) ev = Some (curatorUser, creatorUser, article) ->
  baseFindById (db w) tid = Some tx ->
  ledgerAgrees env tx curatorUser creatorUser article (amount (args ev))
  = true ->
  let m := syncCurationEvent env provider ev in
  outcome m w = Ok [mirrorRow env b ev]
  /\ committed (after m w)
     = committed w ++ [[MarkTransactionState tid succeeded None]]
  /\ ledgerState (db (after m w)) tid = Some (succeeded, tx_remark tx)
  /\ blockchain_transaction (db (after m w)) = blockchain_transaction (db w).
Proof.
  intros Hf Hrem Hfind Hlink Hstate Hdon Htx Hagree m. subst m.
  unfold after, outcome.
  rewrite (syncCurationEvent_added_found env provider ev w b Hrem Hfind).
  assert (Hskip : andb (is_some (bc_transactionId b))
                       (bc_state_eqb (bc_state b) bc_succeeded) = false)
    by now rewrite Hlink, Hstate.
  unfold bind.
  rewrite (reconcileDonation_in_platform env ev b w curatorUser creatorUser
             article Hskip Hdon).
  rewrite Hlink, Htx, Hagree.
  pose proof (find_by_key _ _ _ _ Htx) as Hid. rewrite Hid.
  unfold markTransactionStateAs, exec, knex_transaction, write.
  cbn [faults db committed open_unit job calls]. rewrite Hf.
  unfold ret. cbn [fst snd db committed tl app].
  split; [reflexivity|]. split; [reflexivity|]. split; [|reflexivity].
  unfold ledgerState, baseFindById in *.
  cbn [apply_write with_transaction transaction].
  rewrite (find_by_update_same tx_id _ _ _ _ (set_tx_state_id _ _) Htx).
  reflexivity.
Qed.

(** Alice's pending donation is seen on the chain with the right amount. *)
Lemma syncCurationEvent_confirms_matching_row_witness :
  let m := syncCurationEvent Sample.env (Sample.chain 1000 10000000 [])
             (Sample.added 900 "0xh1" 10000000) in
  let w := Sample.world Sample.store in
  outcome m w = Ok [mirrorRow Sample.env Sample.chainTx1
                      (Sample.added 900 "0xh1" 10000000)]
  /\ ledgerState (db (after m w)) 1%nat = Some (succeeded, None)
  /\ blockchain_transaction (db (after m w)) = blockchain_transaction (db w).
Proof.
  intros m w.
  destruct (syncCurationEvent_confirms_matching_row Sample.env
              (Sample.chain 1000 10000000 [])
              (Sample.added 900 "0xh1" 10000000) w Sample.chainTx1 1%nat
              Sample.donation1 Sample.alice Sample.bob Sample.essay
              eq_refl eq_refl eq_refl eq_refl eq_refl eq_refl eq_refl eq_refl)
    as (H1 & _ & H3 & H4).
  repeat split; assumption.
Defined.

(** ** The event synchronizer: a whole pass *)

(** A pass that ends without error returns the number of events it was
    given, removals included, and its last committed unit is the batch
    insert of the mirror rows, one per added event: an empty insert when the
    batch holds no added event. *)
Theorem syncCurationEvents_result env provider events w w' n :
  syncCurationEvents env provider events w = (w', Ok n) ->
  n = length events
  /\ exists rows,
       Forall2 (mirrors env) rows (addedEvents events)
       /\ exists units, committed w' = units ++ [[InsertCurationEvents rows]].
Proof.
  unfold syncCurationEvents. unfold bind at 1.
  destruct (syncLoop env provider events [] w) as [w1 [rows|e]] eqn:E;
    [|discriminate].
  apply syncLoop_pushed in E. destruct E as (new & -> & Hnew).
  cbn [app].
  assert (Hge : Z.geb (Z.of_nat (length new)) 0 = true).
  { rewrite Z.geb_leb. apply Z.leb_le. lia. }
  rewrite Hge. unfold bind, baseBatchCreate, exec, knex_transaction, write.
  cbn [faults db committed open_unit job calls].
  destruct (faults w1) as [|[] fs]; cbn; unfold ret; intros H;
    try discriminate; injection H as <- <-; cbn;
    (split; [reflexivity|]); exists new; (split; [assumption|]);
    exists (committed w1); reflexivity.
Qed.

(** A batch of one retraction and one foreign event on the sample store. *)
Lemma syncCurationEvents_result_witness :
  let events := [Sample.retracted 900 "0xh1"; Sample.added 901 "0xh9" 10000000] in
  let m := syncCurationEvents Sample.env (Sample.chain 1000 10000000 [])
             events in
  let w := Sample.world Sample.store in
  outcome m w = Ok 2%nat
  /\ exists rows,
       Forall2 (mirrors Sample.env) rows (addedEvents events)
       /\ exists units,
            committed (after m w) = units ++ [[InsertCurationEvents rows]].
Proof.
  intros events m w.
  split; [reflexivity|].
  exact (proj2 (syncCurationEvents_result Sample.env
                  (Sample.chain 1000 10000000 []) events w (after m w) 2%nat
                  (run_pairing m w (Ok 2%nat) eq_refl))).
Defined.

Lemma syncCurationEvents_nil env provider w :
  faults w = [] ->
  outcome (syncCurationEvents env provider []) w = Ok 0%nat
  /\ committed (after (syncCurationEvents env provider []) w)
     = committed w ++ [[InsertCurationEvents []]]
  /\ db (after (syncCurationEvents env provider []) w) = db w.
Proof.
  intros Hf.
  unfold after, outcome, syncCurationEvents, bind, baseBatchCreate, exec,
    knex_transaction, write, ret.
  cbn. rewrite Hf. cbn. repeat split.
  unfold with_curation_event. rewrite app_nil_r. now destruct (db w).
Qed.

(** A pass over no event at all still commits its (empty) batch insert and
    leaves every table as it was. *)
Theorem syncCurationEvents_empty env provider w :
  faults w = [] ->
  let m := syncCurationEvents env provider [] in
  outcome m w = Ok 0%nat
  /\ committed (after m w) = committed w ++ [[InsertCurationEvents []]]
  /\ db (after m w) = db w.
Proof.
  intros Hf m. exact (syncCurationEvents_nil env provider w Hf).
Qed.

Lemma syncCurationEvents_empty_witness :
  let m := syncCurationEvents Sample.env (Sample.chain 1000 10000000 []) [] in
  let w := Sample.world Sample.store in
  outcome m w = Ok 0%nat
  /\ committed (after m w) = [[InsertCurationEvents []]]
  /\ db (after m w) = Sample.store.
Proof.
  exact (syncCurationEvents_empty Sample.env (Sample.chain 1000 10000000 [])
           (Sample.world Sample.store) eq_refl).
Defined.

(** ** A sync run: what it asks and when it writes the cursor *)

(** Every run makes exactly one log query, whatever happens afterwards:
    without a range when there is no sync record or when its block number
    is -1 (the next block, 0, is falsy), and otherwise for the blocks from
    the one after the cursor to the smaller of the safe height and 1999
    blocks further. *)
Theorem handleSyncCurationEvents_one_query env provider w :
  calls (after (_handleSyncCurationEvents env provider) w)
  = calls w
    ++ [QueryFilter
          match cursor w with
          | Some c =>
              if Z.eqb (c + 1) 0 then None
              else Some (c + 1,
                         Z.min (safeHeight env provider) (c + 1 + 1999))
          | None => None
          end].
Proof.
  destruct (handleSyncCurationEvents_cases env provider w)
    as (range & Hcalls & -> & _).
  exact Hcalls.
Qed.

Lemma baseUpdateOrCreate_syncRecord_outcome n w1 w' r :
  baseUpdateOrCreate_syncRecord n w1 = (w', r) ->
  (r = Ok tt /\ cursor w' = Some n
   /\ committed w' = committed w1 ++ [[UpsertSyncRecord n]])
  \/ (r = Err DbError /\ cursor w' = cursor w1).
Proof.
  unfold cursor, baseUpdateOrCreate_syncRecord, exec, knex_transaction, write.
  cbn [faults db committed open_unit job calls].
  destruct (faults w1) as [|[] fs]; cbn; intros H; injection H as <- <-;
    cbn; auto.
Qed.

(** The cursor is the last thing a run writes: a run that ends without
    error has the cursor upsert as its last committed unit, and a run that
    throws anywhere (in the processing of the events, on the empty filtered
    batch, or in the upsert itself) leaves the cursor as it was. *)
Theorem handleSyncCurationEvents_cursor_written_last env provider w :
  let m := _handleSyncCurationEvents env provider in
  match outcome m w with
  | Ok _ =>
      exists t units,
        cursor (after m w) = Some t
        /\ committed (after m w) = units ++ [[UpsertSyncRecord t]]
  | Err _ => cursor (after m w) = cursor w
  end.
Proof.
  intros m. subst m. unfold after, outcome.
  destruct (_handleSyncCurationEvents env provider w) as [w' r] eqn:Run.
  cbn [fst snd].
  unfold _handleSyncCurationEvents in Run. unfold bind, getDb in Run.
  assert (Hwrite : forall t w1,
             cursor w1 = cursor w ->
             baseUpdateOrCreate_syncRecord t w1 = (w', r) ->
             match r with
             | Ok _ =>
                 exists t0 units,
                   cursor w' = Some t0
                   /\ committed w' = units ++ [[UpsertSyncRecord t0]]
             | Err _ => cursor w' = cursor w
             end).
  { intros t w1 Hc E.
    apply baseUpdateOrCreate_syncRecord_outcome in E.
    destruct E as [(-> & Hcur & Hcom)|(-> & Hcur)].
    - exists t, (committed w1). now split.
    - congruence. }
  destruct (falsy _).
  - rewrite call_run in Run.
    match type of Run with
    | context [syncCurationEvents env provider ?evs ?w0] =>
        pose proof (cursorFrame_syncCurationEvents env provider evs w0)
          as (F1 & _);
        unfold after in F1;
        set (filtered := evs) in *;
        destruct (syncCurationEvents env provider filtered w0) as [w1 [n|e]]
    end; cbn [fst snd db] in *.
    2:{ injection Run as <- <-. exact F1. }
    destruct (Nat.eqb _ (length filtered)).
    + unfold ret in Run. exact (Hwrite _ _ F1 Run).
    + destruct (nth_error filtered (length filtered - 1)) as [e|].
      * unfold ret in Run. exact (Hwrite _ _ F1 Run).
      * unfold throw in Run. injection Run as <- <-. exact F1.
  - rewrite call_run in Run.
    match type of Run with
    | context [syncCurationEvents env provider ?evs ?w0] =>
        pose proof (cursorFrame_syncCurationEvents env provider evs w0)
          as (F1 & _);
        unfold after in F1;
        destruct (syncCurationEvents env provider evs w0) as [w1 [n|e]]
    end; cbn [fst snd db] in *.
    + unfold ret in Run. exact (Hwrite _ _ F1 Run).
    + injection Run as <- <-. exact F1.
Qed.

(** In catch-up mode, when the chain returns events and every one of them
    lies beyond the safe height, the run processes nothing, throws a
    TypeError on the missing last event and writes no cursor. *)
Theorem catchUp_all_events_beyond_safe_height env provider w :
  faults w = [] ->
  cursor w = None ->
  queryFilter provider None <> [] ->
  withinSafe (safeHeight env provider) (queryFilter provider None) = [] ->
  let m := _handleSyncCurationEvents env provider in
  outcome m w = Err TypeError
  /\ cursor (after m w) = None
  /\ transaction (db (after m w)) = transaction (db w)
  /\ blockchain_transaction (db (after m w)) = blockchain_transaction (db w).
Proof.
  intros Hf Hc Hne Hnone m. subst m.
  assert (Run : _handleSyncCurationEvents env provider w
                = (after (syncCurationEvents env provider [])
                         (after (call (QueryFilter None)) w),
                   Err TypeError)).
  { unfold _handleSyncCurationEvents. unfold cursor in Hc.
    fold (safeHeight env provider).
    unfold bind at 1. unfold getDb. rewrite Hc. cbn [option_map falsy].
    unfold bind at 1. unfold bind at 1. unfold bind at 1.
    change (call (QueryFilter None) w)
      with (after (call (QueryFilter None)) w, @Ok unit tt).
    cbv beta iota.
    change (filter (fun e => Z.leb (blockNumber e) (safeHeight env provider))
                   (queryFilter provider None))
      with (withinSafe (safeHeight env provider) (queryFilter provider None)).
    rewrite Hnone.
    pose proof (syncCurationEvents_nil env provider
                  (after (call (QueryFilter None)) w) Hf) as (Hok & _).
    unfold outcome, after in *.
    destruct (syncCurationEvents env provider [] _) as [w1 r1].
    cbn [fst snd] in *. subst r1.
    destruct (queryFilter provider None) as [|e0 es]; [contradiction|].
    reflexivity. }
  unfold after at 1 2 3, outcome. rewrite Run. cbn [fst snd].
  pose proof (syncCurationEvents_nil env provider
                (after (call (QueryFilter None)) w) Hf) as (_ & _ & Hdb).
  cbv zeta in Hdb. unfold cursor. rewrite Hdb.
  split; [reflexivity|]. split; [exact Hc|]. split; reflexivity.
Qed.

(** Height 1000 with 12 confirmations and events at blocks 990 and 995. *)
Lemma catchUp_all_events_beyond_safe_height_witness :
  let provider :=
    Sample.chain 1000 10000000
      [Sample.added 990 "0xe2" 10000000; Sample.added 995 "0xe3" 10000000] in
  let m := _handleSyncCurationEvents Sample.env provider in
  let w := Sample.world Sample.store in
  outcome m w = Err TypeError /\ cursor (after m w) = None.
Proof.
  intros provider m w.
  assert (Hne : queryFilter provider None <> []) by discriminate.
  destruct (catchUp_all_events_beyond_safe_height Sample.env provider w
              eq_refl eq_refl Hne eq_refl) as (H1 & H2 & _).
  split; assumption.
Defined.

(** ** URIs and addresses *)

Lemma substring_all s : String.substring 0 (String.length s) s = s.
Proof. induction s as [|c s IH]; cbn; [reflexivity | now rewrite IH]. Qed.

Lemma prefix_rest p s :
  String.prefix p s = true ->
  String.append p (String.substring (String.length p)
                     (String.length s - String.length p) s) = s.
Proof.
  revert s. induction p as [|a p IH]; intros s H.
  - cbn. rewrite Nat.sub_0_r. apply substring_all.
  - destruct s as [|b s]; [discriminate H|].
    cbn in H. destruct (ascii_dec a b) as [->|]; [|discriminate H].
    cbn. now rewrite (IH s H).
Qed.

Lemma prefix_append p s : String.prefix p (String.append p s) = true.
Proof.
  induction p as [|a p IH]; cbn.
  - now destruct s.
  - destruct (ascii_dec a a) as [_|N]; [exact IH | now elim N].
Qed.

Lemma replace_prefix pat rep s :
  String.prefix pat s = true ->
  Str.replace pat rep s
  = String.append rep (String.substring (String.length pat)
                         (String.length s - String.length pat) s).
Proof.
  intros H. destruct s as [|c s].
  - destruct pat; [reflexivity | discriminate H].
  - change (Str.replace pat rep (String c s))
      with (if String.prefix pat (String c s)
            then String.append rep
                   (String.substring (String.length pat)
                      (String.length (String c s) - String.length pat)
                      (String c s))
            else String c (Str.replace pat rep s)).
    now rewrite H.
Qed.

(** [extractCid] undoes the prefixing of a content identifier with the
    scheme, and on a URI that [isValidUri] accepts prefixing undoes
    [extractCid]: a valid URI and its content identifier determine each
    other. *)
Theorem ipfs_uri_round_trip :
  (forall cid,
     isValidUri (String.append "ipfs://" cid) = true
     /\ extractCid (String.append "ipfs://" cid) = cid)
  /\ (forall uri,
        isValidUri uri = true ->
        String.append "ipfs://" (extractCid uri) = uri).
Proof.
  split.
  - intros cid.
    assert (Hp : String.prefix "ipfs://" (String.append "ipfs://" cid) = true)
      by apply prefix_append.
    split; [exact Hp|].
    unfold extractCid. rewrite (replace_prefix _ _ _ Hp).
    cbn. rewrite Nat.sub_0_r. apply substring_all.
  - intros uri H. unfold isValidUri in H. unfold extractCid.
    rewrite (replace_prefix _ _ _ H).
    change (String.append "" ?x) with x.
    exact (prefix_rest _ _ H).
Qed.

Lemma ipfs_uri_round_trip_witness :
  extractCid "ipfs://Qm1" = "Qm1"
  /\ String.append "ipfs://" (extractCid "ipfs://Qm1") = "ipfs://Qm1".
Proof.
  destruct ipfs_uri_round_trip as [H1 H2].
  split.
  - exact (proj2 (H1 "Qm1")).
  - exact (H2 "ipfs://Qm1" eq_refl).
Defined.

(** [ignoreCaseMatch] is an equivalence on strings that does not see the
    case of either side. *)
Theorem ignoreCaseMatch_equivalence :
  (forall a, ignoreCaseMatch a a = true)
  /\ (forall a b, ignoreCaseMatch a b = ignoreCaseMatch b a)
  /\ (forall a b c, ignoreCaseMatch a b = true -> ignoreCaseMatch b c = true ->
                    ignoreCaseMatch a c = true)
  /\ (forall a b, ignoreCaseMatch (Str.toLowerCase a) b = ignoreCaseMatch a b).
Proof.
  unfold ignoreCaseMatch. repeat split.
  - intros a. apply String.eqb_refl.
  - intros a b. apply String.eqb_sym.
  - intros a b c H1 H2. apply String.eqb_eq in H1, H2.
    apply String.eqb_eq. congruence.
  - intros a b. now rewrite toLowerCase_idem.
Qed.
